(** * Molecule: configuration resolution, driver pinning and plugin registries

    A shallow embedding of [src/molecule/api.py] and [src/molecule/config.py]
    and the properties of the configuration resolver that the specification
    states about them.

    Python objects are modelled by explicit state passing: a [World] holds the
    log, the persisted state record, the heap of [State] objects and the
    memoised [state] slot of the [Config] instance; computations return a
    value or the exception that left them. *)

From Stdlib Require Import ZArith Lia Ascii String.
From stdpp Require Import base option list strings pretty gmap fin_maps.

Local Open Scope string_scope.
Local Open Scope list_scope.

(** ** Python preliminaries: exceptions, logging, the computation monad *)

Module Py.

(** The exceptions the modelled code raises or handles.  [SystemExit] is the
    only one that does not derive from [Exception]. *)
Inductive exc : Type :=
| SystemExit (msg : string)
| AttributeError (msg : string)
| KeyError (key : string)
| IndexError
| TypeError (msg : string)
| FileNotFoundError (path : string)
| InvalidInterpolation (text : string) (place : string)
| Exception (msg : string).

(** [isinstance(e, Exception)] *)
Definition is_Exception (e : exc) : bool :=
  match e with
  | SystemExit _ => false
  | _ => true
  end.

(** [str(e)] *)
Definition exc_str (e : exc) : string :=
  match e with
  | SystemExit msg => msg
  | AttributeError msg => msg
  | KeyError key => "'" +:+ key +:+ "'"
  | IndexError => "list index out of range"
  | TypeError msg => msg
  | FileNotFoundError path => "[Errno 2] No such file or directory: '" +:+ path +:+ "'"
  | InvalidInterpolation _ place => place
  | Exception msg => msg
  end.

Inductive res (A : Type) : Type :=
| Ok (a : A)
| Raised (e : exc).
Arguments Ok {A} a.
Arguments Raised {A} e.

Inductive level : Type := DEBUG | WARNING | ERROR | CRITICAL.

Definition log_record : Type := level * string.

(** Modelled from the spec: the persisted record of [molecule.state.State],
    whose source is not part of the tree under study: driver name, created
    and converged flags, last-known modification time of the scenario's
    config file, run identifier. *)
Record StateData : Type := mkStateData {
  sd_driver : option string;
  sd_created : bool;
  sd_converged : bool;
  sd_molecule_yml_date_modified : option Z;
  sd_run_uuid : option string;
}.

Record World : Type := mkWorld {
  w_log : list log_record;          (* records emitted through LOG *)
  w_state_file : option StateData;  (* the scenario's state file, if written *)
  w_heap : list StateData;          (* State objects, addressed by position *)
  w_state_slot : option nat;        (* cached_property slot of Config.state *)
}.

Definition M (A : Type) : Type := World → World * res A.

Definition ret {A} (a : A) : M A := λ w, (w, Ok a).

Definition bind {A B} (m : M A) (k : A → M B) : M B :=
  λ w, match m w with
       | (w', Ok a) => k a w'
       | (w', Raised e) => (w', Raised e)
       end.

Definition raise {A} (e : exc) : M A := λ w, (w, Raised e).

(** [try: m  except <handled> as e: h e] *)
Definition try_except {A} (m : M A) (handled : exc → bool) (h : exc → M A) : M A :=
  λ w, match m w with
       | (w', Ok a) => (w', Ok a)
       | (w', Raised e) => if handled e then h e w' else (w', Raised e)
       end.

Definition log (lv : level) (msg : string) : M unit :=
  λ w, (mkWorld (w_log w ++ [(lv, msg)]) (w_state_file w) (w_heap w) (w_state_slot w),
        Ok tt).

Definition of_res {A} (r : res A) : M A := λ w, (w, r).

(** [l[i]] on a list, negative indices counting from the end. *)
Definition list_getitem {A} (l : list A) (i : Z) : res A :=
  let n := Z.of_nat (length l) in
  let j := if (i <? 0)%Z then (i + n)%Z else i in
  if ((0 <=? j)%Z && (j <? n)%Z)%bool
  then match l !! Z.to_nat j with
       | Some x => Ok x
       | None => Raised IndexError
       end
  else Raised IndexError.

Definition empty_world : World := mkWorld [] None [] None.

End Py.

Import Py.

#[global] Instance M_ret : MRet M := @Py.ret.
#[global] Instance M_bind : MBind M := λ A B k m, Py.bind m k.

(** ** [molecule.api] *)

Module Api.

Section UserListMap.
Context {A : Type}.
(** [str(item)] *)
Variable str : A → string.

(** What an entry of the instance [__dict__] can hold: the backing list
    that [UserList.__init__] stores under ["data"], an appended item, or a
    caller's default such as [None]. *)
Inductive obj : Type :=
| OList (l : list A)
| OItem (x : A)
| ONone.

(** [UserListMap()]: [UserList.__init__] sets [self.data = []]. *)
Definition new : gmap string obj := {[ "data" := OList [] ]}.

(** [self.data] *)
Definition data (self : gmap string obj) : res (list A) :=
  match self !! "data" with
  | Some (OList l) => Ok l
  | Some _ => Raised (AttributeError "object has no list interface")
  | None => Raised (AttributeError "'UserListMap' object has no attribute 'data'")
  end.

Inductive index : Type :=
| IInt (i : Z)
| IStr (s : string).

(** [__getitem__] *)
Definition getitem (self : gmap string obj) (i : index) : res obj :=
  match i with
  | IInt z =>
      match self !! "data" with
      | Some (OList l) =>
          match list_getitem l z with
          | Ok x => Ok (OItem x)
          | Raised e => Raised e
          end
      | Some _ => Raised (TypeError "object is not subscriptable")
      | None => Raised (AttributeError "'UserListMap' object has no attribute 'data'")
      end
  | IStr s =>
      match self !! s with
      | Some o => Ok o
      | None => Raised (KeyError s)
      end
  end.

(** The attribute lookup that precedes the call of a method, as in
    [self.append], [self.get] and [self.sort]: Python looks in the instance
    [__dict__] before it looks for a function of the class, so an item that
    [append] stored under the name of a method is found in the method's
    place.  Items are plugin instances, which are not callable: the call
    then raises [TypeError].  ([__getitem__] and [__contains__] are looked
    up on the class and cannot be shadowed.)  The messages of [TypeError]
    and [AttributeError] are given without the name of the object's type,
    which the model does not carry. *)
Definition method (name : string) (self : gmap string obj) : res unit :=
  match self !! name with
  | Some _ => Raised (TypeError "object is not callable")
  | None => Ok tt
  end.

(** [self.get(key, default)] *)
Definition get (self : gmap string obj) (key : string) (default : obj) : res obj :=
  match method "get" self with
  | Ok _ =>
      match self !! key with
      | Some o => Ok o
      | None => Ok default
      end
  | Raised e => Raised e
  end.

(** [UserList.append], which [UserListMap.append] reaches through
    [super()]: [self.data.append(item)] on whatever ["data"] holds. *)
Definition UserList_append (item : A) (self : gmap string obj)
    : gmap string obj * res unit :=
  match self !! "data" with
  | Some (OList l) => (<[ "data" := OList (l ++ [item]) ]> self, Ok tt)
  | Some _ => (self, Raised (AttributeError "object has no attribute 'append'"))
  | None => (self, Raised (AttributeError "'UserListMap' object has no attribute 'data'"))
  end.

(** [self.append(item)]: once the method is found, the name entry is
    written first, then [UserList.append] runs. *)
Definition append (item : A) (self : gmap string obj) : gmap string obj * res unit :=
  match method "append" self with
  | Ok _ => UserList_append item (<[ str item := OItem item ]> self)
  | Raised e => (self, Raised e)
  end.

(** [item in self]: [UserList.__contains__] searches [self.data]; plugins
    compare equal to a name when their [str] is that name. *)
Definition contains (name : string) (self : gmap string obj) : res bool :=
  match data self with
  | Ok l => Ok (existsb (λ x, String.eqb (str x) name) l)
  | Raised e => Raised e
  end.

(** [list.sort()] with the items' [<]: a stable insertion sort. *)
Variable lt : A → A → bool.

Fixpoint insert_sorted (x : A) (l : list A) : list A :=
  match l with
  | [] => [x]
  | y :: l' => if lt y x then y :: insert_sorted x l' else x :: y :: l'
  end.

Definition sorted (l : list A) : list A := foldr insert_sorted [] l.

(** [UserList.sort]: sorts [self.data] in place. *)
Definition UserList_sort (self : gmap string obj) : gmap string obj * res unit :=
  match self !! "data" with
  | Some (OList l) => (<[ "data" := OList (sorted l) ]> self, Ok tt)
  | Some _ => (self, Raised (AttributeError "object has no attribute 'sort'"))
  | None => (self, Raised (AttributeError "'UserListMap' object has no attribute 'data'"))
  end.

(** [self.sort()] *)
Definition sort (self : gmap string obj) : gmap string obj * res unit :=
  match method "sort" self with
  | Ok _ => UserList_sort self
  | Raised e => (self, Raised e)
  end.

End UserListMap.

Arguments obj A : clear implicits.

Section Registry.
(** [C] is the type of the [config] argument, [A] the type of plugin
    instances. *)
Context {C A : Type}.
Variable str : A → string.
Variable lt : A → A → bool.
(** [traceback.format_exc()] for the exception being handled. *)
Variable format_exc : exc → string.

(** A plugin class registered with the plugin manager: its registered
    name ([pm.get_name(p)]) and its constructor ([p(config)]). *)
Record Factory : Type := mkFactory {
  get_name : string;
  construct : C → res A;
}.

(** The [pluggy.PluginManager] after [load_setuptools_entrypoints] ran:
    how that call ended and which plugins [get_plugins()] lists. *)
Record PluginManager : Type := mkPluginManager {
  load_setuptools_entrypoints : res unit;
  get_plugins : list Factory;
}.

(** [except (Exception, SystemExit)] *)
Definition Exception_or_SystemExit (e : exc) : bool :=
  is_Exception e || match e with SystemExit _ => true | _ => false end.

(** One round of the loop
    [try: plugins.append(p(config))  except <caught> as e: LOG.error(...)].
    The constructor runs before the call of [plugins.append], so its
    exception, if any, is the one the handler sees. *)
Definition load_plugin (caught : exc → bool) (config : C)
    (plugins : gmap string (obj A)) (p : Factory) : M (gmap string (obj A)) :=
  let '(plugins', r) :=
    match construct p config with
    | Ok item => append str item plugins
    | Raised e => (plugins, Raised e)
    end in
  match r with
  | Ok _ => mret plugins'
  | Raised e =>
      if caught e
      then log ERROR ("Failed to load " +:+ get_name p +:+ " driver: " +:+ exc_str e);;
           mret plugins'
      else raise e
  end.

Fixpoint load_plugins (caught : exc → bool) (config : C)
    (plugins : gmap string (obj A)) (ps : list Factory) : M (gmap string (obj A)) :=
  match ps with
  | [] => mret plugins
  | p :: ps' =>
      plugins' ← load_plugin caught config plugins p;
      load_plugins caught config plugins' ps'
  end.

(** [plugins.sort(); return plugins] *)
Definition sort_and_return (plugins : gmap string (obj A)) : M (gmap string (obj A)) :=
  match sort lt plugins with
  | (plugins', Ok _) => mret plugins'
  | (_, Raised e) => raise e
  end.

(** [drivers(config)] *)
Definition drivers (pm : PluginManager) (config : C) : M (gmap string (obj A)) :=
  let plugins := new in
  try_except (of_res (load_setuptools_entrypoints pm))
    Exception_or_SystemExit
    (λ e, log ERROR ("Failed to load driver entry point " +:+ format_exc e));;
  plugins ← load_plugins Exception_or_SystemExit config plugins (get_plugins pm);
  sort_and_return plugins.

(** [verifiers(config)] *)
Definition verifiers (pm : PluginManager) (config : C) : M (gmap string (obj A)) :=
  let plugins := new in
  try_except (of_res (load_setuptools_entrypoints pm))
    is_Exception
    (λ e, log ERROR ("Failed to load verifier entry point " +:+ format_exc e));;
  plugins ← load_plugins is_Exception config plugins (get_plugins pm);
  sort_and_return plugins.

End Registry.

Arguments Factory C A : clear implicits.
Arguments PluginManager C A : clear implicits.

End Api.

(** ** Configuration documents and [molecule.util] *)

Module Util.

(** A parsed YAML document.  Mappings keep insertion order, as Python
    dictionaries do. *)
#[local] Unset Elimination Schemes.
Inductive value : Type :=
| VNone
| VBool (b : bool)
| VInt (z : Z)
| VStr (s : string)
| VList (l : list value)
| VDict (d : list (string * value)).
#[local] Set Elimination Schemes.

(** [d.get(k)] / [k in d] *)
Fixpoint dict_get {V} (k : string) (d : list (string * V)) : option V :=
  match d with
  | [] => None
  | (k', v) :: d' => if String.eqb k' k then Some v else dict_get k d'
  end.

(** [d[k] = v]: an existing key keeps its place, a new key goes last. *)
Fixpoint dict_set {V} (k : string) (v : V) (d : list (string * V)) : list (string * V) :=
  match d with
  | [] => [(k, v)]
  | (k', v') :: d' => if String.eqb k' k then (k', v) :: d' else (k', v') :: dict_set k v d'
  end.

(** Modelled from the spec: [util.merge_dicts(a, b)], whose source is not
    part of the tree under study.  The specification gives it deep-merge
    semantics: mapping keys merge recursively, sequence and scalar values
    are fully replaced by the later source, never concatenated or appended.
    [merge_value a v] is the value stored under a key that holds [a] in the
    earlier source and [v] in the later one. *)
Fixpoint merge_value (a v : value) {struct v} : value :=
  match a, v with
  | VDict da, VDict db =>
      VDict (fold_left
               (λ result kv,
                  dict_set kv.1
                    (match dict_get kv.1 da with
                     | Some a' => merge_value a' kv.2
                     | None => kv.2
                     end) result)
               db da)
  | _, _ => v
  end.

Definition merge_dicts (a b : list (string * value)) : list (string * value) :=
  fold_left
    (λ result kv,
       dict_set kv.1
         (match dict_get kv.1 a with
          | Some a' => merge_value a' kv.2
          | None => kv.2
          end) result)
    b a.

(** [bool(v)] *)
Definition py_bool (v : value) : bool :=
  match v with
  | VNone => false
  | VBool b => b
  | VInt z => negb (z =? 0)%Z
  | VStr s => negb (String.eqb s "")
  | VList l => match l with [] => false | _ => true end
  | VDict d => match d with [] => false | _ => true end
  end.

(** Structural equality.  It is Python's [==] wherever the resolver
    compares: a value with itself, or with a string. *)
Fixpoint value_eqb (a b : value) {struct a} : bool :=
  match a, b with
  | VNone, VNone => true
  | VBool x, VBool y => Bool.eqb x y
  | VInt x, VInt y => (x =? y)%Z
  | VStr x, VStr y => String.eqb x y
  | VList la, VList lb =>
      (fix go (la lb : list value) : bool :=
         match la, lb with
         | [], [] => true
         | x :: la', y :: lb' => value_eqb x y && go la' lb'
         | _, _ => false
         end) la lb
  | VDict da, VDict db =>
      (fix go (da db : list (string * value)) : bool :=
         match da, db with
         | [], [] => true
         | kx :: da', ky :: db' =>
             String.eqb kx.1 ky.1 && value_eqb kx.2 ky.2 && go da' db'
         | _, _ => false
         end) da db
  | _, _ => false
  end.

(** A string or [None] as a value. *)
Definition of_name (o : option string) : value :=
  match o with
  | Some s => VStr s
  | None => VNone
  end.

(** [str(v)], as an f-string renders it; [repr_container] renders lists
    and mappings. *)
Definition py_str (repr_container : value → string) (v : value) : string :=
  match v with
  | VNone => "None"
  | VBool true => "True"
  | VBool false => "False"
  | VInt z => pretty z
  | VStr s => s
  | _ => repr_container v
  end.

(** Modelled from the spec: [util.sysexit_with_message(msg)], whose source is
    not part of the tree under study.  The specification says that a fatal
    condition exits the process immediately with a user-facing message:
    the call raises [SystemExit] carrying that message. *)
Definition sysexit_with_message {A} (msg : string) : M A :=
  raise (SystemExit msg).

End Util.

Import Util.


(** ** [os.path] on POSIX paths *)

Module OsPath.

Definition is_sep (c : ascii) : bool := Ascii.eqb c "/"%char.

Fixpoint has_sep (s : string) : bool :=
  match s with
  | EmptyString => false
  | String c s' => is_sep c || has_sep s'
  end.

Fixpoint all_sep (s : string) : bool :=
  match s with
  | EmptyString => true
  | String c s' => is_sep c && all_sep s'
  end.

(** [p[i:]] for [i = p.rfind('/') + 1] *)
Fixpoint basename (p : string) : string :=
  match p with
  | EmptyString => EmptyString
  | String c p' =>
      if has_sep p' then basename p'
      else if is_sep c then p' else p
  end.

(** [p[:i]] for [i = p.rfind('/') + 1] *)
Fixpoint head (p : string) : string :=
  match p with
  | EmptyString => EmptyString
  | String c p' =>
      if has_sep p' then String c (head p')
      else if is_sep c then String c EmptyString else EmptyString
  end.

(** [s.rstrip('/')] *)
Fixpoint rstrip_sep (s : string) : string :=
  match s with
  | EmptyString => EmptyString
  | String c s' =>
      match rstrip_sep s' with
      | EmptyString => if is_sep c then EmptyString else String c EmptyString
      | r => String c r
      end
  end.

Definition dirname (p : string) : string :=
  let h := head p in
  if negb (String.eqb h "") && negb (all_sep h) then rstrip_sep h else h.

(** A file system as the resolver sees it. *)
Inductive node : Type :=
| Dir (mtime : Z)
| File (content : string) (mtime : Z).

(** [os.path.exists] *)
Definition exists_ (fs : gmap string node) (p : string) : bool :=
  match fs !! p with
  | Some _ => true
  | None => false
  end.

(** [os.path.isfile] *)
Definition isfile (fs : gmap string node) (p : string) : bool :=
  match fs !! p with
  | Some (File _ _) => true
  | _ => false
  end.

(** [os.path.getmtime] *)
Definition getmtime (fs : gmap string node) (p : string) : res Z :=
  match fs !! p with
  | Some (File _ t) => Ok t
  | Some (Dir t) => Ok t
  | None => Raised (FileNotFoundError p)
  end.

(** [with open(p) as stream: stream.read()] *)
Definition read (fs : gmap string node) (p : string) : res string :=
  match fs !! p with
  | Some (File c _) => Ok c
  | Some (Dir _) => Raised (Exception ("[Errno 21] Is a directory: '" +:+ p +:+ "'"))
  | None => Raised (FileNotFoundError p)
  end.

End OsPath.

(** ** [molecule.state] *)

Module State.

(** Modelled from the spec: [molecule.state.State], whose source is not part
    of the tree under study.  The specification describes a small persisted
    record per scenario (driver name, created and converged flags, the
    last-known modification time of the scenario's config file, the run
    identifier), read back whenever a [State] is constructed, mutated by
    explicit [change_state(key, value)] calls and persisted on each
    mutation. *)
Definition default_data : StateData := mkStateData None false false None None.

(** Modelled from the spec: [State(config)], read back from the state file
    on construction: a new object holding what the state file records. *)
Definition new : M nat :=
  λ w, let d := default default_data (w_state_file w) in
       (mkWorld (w_log w) (w_state_file w) (w_heap w ++ [d]) (w_state_slot w),
        Ok (length (w_heap w))).

(** Modelled from the spec: the record a [State] object holds. *)
Definition data (o : nat) : M StateData :=
  λ w, match w_heap w !! o with
       | Some d => (w, Ok d)
       | None => (w, Raised (Exception "no such State object"))
       end.

(** Modelled from the spec: [state.driver], the driver name used for the
    last create. *)
Definition driver (o : nat) : M (option string) :=
  d ← data o; mret (sd_driver d).

(** Modelled from the spec: [state.molecule_yml_date_modified]. *)
Definition molecule_yml_date_modified (o : nat) : M (option Z) :=
  d ← data o; mret (sd_molecule_yml_date_modified d).

(** Modelled from the spec: the key of a [change_state] call together with
    its value. *)
Inductive change : Type :=
| Cdriver (v : option string)
| Ccreated (v : bool)
| Cconverged (v : bool)
| Cmolecule_yml_date_modified (v : option Z)
| Crun_uuid (v : option string).

(** Modelled from the spec: the record after a [change_state] call. *)
Definition apply_change (c : change) (d : StateData) : StateData :=
  match c with
  | Cdriver v =>
      mkStateData v (sd_created d) (sd_converged d)
                  (sd_molecule_yml_date_modified d) (sd_run_uuid d)
  | Ccreated v =>
      mkStateData (sd_driver d) v (sd_converged d)
                  (sd_molecule_yml_date_modified d) (sd_run_uuid d)
  | Cconverged v =>
      mkStateData (sd_driver d) (sd_created d) v
                  (sd_molecule_yml_date_modified d) (sd_run_uuid d)
  | Cmolecule_yml_date_modified v =>
      mkStateData (sd_driver d) (sd_created d) (sd_converged d) v (sd_run_uuid d)
  | Crun_uuid v =>
      mkStateData (sd_driver d) (sd_created d) (sd_converged d)
                  (sd_molecule_yml_date_modified d) v
  end.

(** Modelled from the spec: [state.change_state(key, value)], a mutation
    persisted to disk: updates the object and writes its record to the
    state file. *)
Definition change_state (o : nat) (c : change) : M unit :=
  λ w, match w_heap w !! o with
       | Some d =>
           let d' := apply_change c d in
           (mkWorld (w_log w) (Some d') (<[ o := d' ]> (w_heap w)) (w_state_slot w),
            Ok tt)
       | None => (w, Raised (Exception "no such State object"))
       end.

End State.

(** ** [molecule.config] *)

Module Config.

Definition MOLECULE_KEEP_STRING : string := "MOLECULE_".
Definition DEFAULT_DRIVER : string := "default".

(** The attributes of a [Config] instance that the resolver reads.  An unset
    [molecule_file] is the empty string; the two argument dictionaries are
    represented by the entries that are looked up in them. *)
Record Config : Type := mkConfig {
  molecule_file : string;
  args_base_config : option (list string);   (* args.get("base_config") *)
  args_env_file : option string;             (* args.get("env_file") *)
  command_args_driver_name : option string;  (* command_args.get("driver_name") *)
  config : list (string * value);            (* the merged configuration *)
}.

(** [_get_defaults], given the scenario name. *)
Definition defaults_for (scenario_name : string) : list (string * value) :=
  [ ("dependency",
      VDict [ ("name", VStr "galaxy");
              ("command", VNone);
              ("enabled", VBool true);
              ("options", VDict []);
              ("env", VDict []) ]);
    ("driver",
      VDict [ ("name", VStr "default");
              ("provider", VDict [ ("name", VNone) ]);
              ("options", VDict [ ("managed", VBool true) ]);
              ("ssh_connection_options", VList []);
              ("safe_files", VList []) ]);
    ("platforms", VList []);
    ("prerun", VBool true);
    ("role_name_check", VInt 0);
    ("provisioner",
      VDict [ ("name", VStr "ansible");
              ("config_options", VDict []);
              ("ansible_args", VList []);
              ("connection_options", VDict []);
              ("options", VDict []);
              ("env", VDict []);
              ("inventory",
                VDict [ ("hosts", VDict []);
                        ("host_vars", VDict []);
                        ("group_vars", VDict []);
                        ("links", VDict []) ]);
              ("children", VDict []);
              ("playbooks",
                VDict [ ("cleanup", VStr "cleanup.yml");
                        ("create", VStr "create.yml");
                        ("converge", VStr "converge.yml");
                        ("destroy", VStr "destroy.yml");
                        ("prepare", VStr "prepare.yml");
                        ("side_effect", VStr "side_effect.yml");
                        ("verify", VStr "verify.yml") ]);
              ("log", VBool true) ]);
    ("scenario",
      VDict [ ("name", VStr scenario_name);
              ("check_sequence",
                VList [ VStr "dependency"; VStr "cleanup"; VStr "destroy";
                        VStr "create"; VStr "prepare"; VStr "converge";
                        VStr "check"; VStr "cleanup"; VStr "destroy" ]);
              ("cleanup_sequence", VList [ VStr "cleanup" ]);
              ("converge_sequence",
                VList [ VStr "dependency"; VStr "create"; VStr "prepare";
                        VStr "converge" ]);
              ("create_sequence",
                VList [ VStr "dependency"; VStr "create"; VStr "prepare" ]);
              ("destroy_sequence",
                VList [ VStr "dependency"; VStr "cleanup"; VStr "destroy" ]);
              ("test_sequence",
                VList [ VStr "dependency"; VStr "cleanup"; VStr "destroy";
                        VStr "syntax"; VStr "create"; VStr "prepare";
                        VStr "converge"; VStr "idempotence"; VStr "side_effect";
                        VStr "verify"; VStr "cleanup"; VStr "destroy" ]) ]);
    ("verifier",
      VDict [ ("name", VStr "ansible");
              ("enabled", VBool true);
              ("options", VDict []);
              ("env", VDict []);
              ("additional_files_or_dirs", VList []) ]) ].

(** [_get_defaults] *)
Definition _get_defaults (self : Config) : list (string * value) :=
  let scenario_name :=
    if String.eqb (molecule_file self) "" then "default"
    else
      let b := OsPath.basename (OsPath.dirname (molecule_file self)) in
      if String.eqb b "" then "default" else b in
  defaults_for scenario_name.

(** [d[k]] on a parsed value. *)
Definition value_getitem (v : value) (k : string) : res value :=
  match v with
  | VDict d =>
      match dict_get k d with
      | Some x => Ok x
      | None => Raised (KeyError k)
      end
  | VStr _ => Raised (TypeError "string indices must be integers")
  | VList _ => Raised (TypeError "list indices must be integers or slices, not str")
  | _ => Raised (TypeError "object is not subscriptable")
  end.

Definition nl : string := String (ascii_of_nat 10) EmptyString.

Section Resolver.
(** The plugin instances of the driver registry and their [str]. *)
Context {A : Type}.
Variable str : A → string.
(** The files on disk. *)
Variable fs : gmap string OsPath.node.
(** [interpolation.Interpolator(TemplateWithDefaults, env).interpolate]:
    the interpolated text, or [InvalidInterpolation]. *)
Variable interpolate : gmap string string → string → option string → res string.
(** [util.safe_load]: the mapping a YAML document denotes. *)
Variable safe_load : string → res (list (string * value)).
(** [util.safe_load_file] on an environment file. *)
Variable safe_load_file : string → res (list (string * string)).
(** [util.abs_path] *)
Variable abs_path : option string → option string.
(** The path of the scenario's state file ([State.state_file]). *)
Variable state_file : Config → string.
(** The memoised collection that [api.drivers()] returns. *)
Variable api_drivers : gmap string (Api.obj A).
(** [str] of a list or a mapping. *)
Variable repr_container : value → string.

(** [env_file] *)
Definition env_file (self : Config) : option string :=
  abs_path (args_env_file self).

(** [set_env_from_file] *)
Definition set_env_from_file (env : gmap string string) (env_file : option string)
    : res (gmap string string) :=
  match env_file with
  | Some f =>
      if negb (String.eqb f "") && OsPath.exists_ fs f
      then match safe_load_file f with
           | Ok d => Ok (fold_left (λ env kv, <[ kv.1 := kv.2 ]> env) d env)
           | Raised e => Raised e
           end
      else Ok env
  | None => Ok env
  end.

(** [_interpolate] *)
Definition _interpolate (self : Config) (stream : string)
    (env : gmap string string) (keep_string : option string) : M string :=
  env ← of_res (set_env_from_file env (env_file self));
  try_except (of_res (interpolate env stream keep_string))
    (λ e, match e with InvalidInterpolation _ _ => true | _ => false end)
    (λ e, match e with
          | InvalidInterpolation text place =>
              let msg := "parsing config file '" +:+ molecule_file self +:+ "'."
                         +:+ nl +:+ nl +:+ place +:+ nl +:+ text in
              sysexit_with_message (A := unit) msg;;
              mret ""
          | _ => mret ""
          end).

(** The body shared by the two loading blocks of [_combine]: read the
    file, interpolate it, parse it, merge it onto the accumulator. *)
Definition merge_file (self : Config) (env : gmap string string)
    (keep_string : option string) (defaults : list (string * value))
    (path : string) : M (list (string * value)) :=
  s ← of_res (OsPath.read fs path);
  interpolated_config ← _interpolate self s env keep_string;
  doc ← of_res (safe_load interpolated_config);
  mret (merge_dicts defaults doc).

Fixpoint merge_files (self : Config) (env : gmap string string)
    (keep_string : option string) (defaults : list (string * value))
    (paths : list string) : M (list (string * value)) :=
  match paths with
  | [] => mret defaults
  | path :: paths' =>
      defaults' ← merge_file self env keep_string defaults path;
      merge_files self env keep_string defaults' paths'
  end.

(** [_combine] *)
Definition _combine (self : Config) (env : gmap string string)
    (keep_string : option string) : M (list (string * value)) :=
  let defaults := _get_defaults self in
  let base_configs :=
    List.filter (OsPath.exists_ fs) (default [] (args_base_config self)) in
  defaults ← merge_files self env keep_string defaults base_configs;
  if negb (String.eqb (molecule_file self) "")
  then merge_file self env keep_string defaults (molecule_file self)
  else mret defaults.

(** [_get_config], [environ] being [os.environ]. *)
Definition _get_config (self : Config) (environ : gmap string string)
    : M (list (string * value)) :=
  _combine self environ (Some MOLECULE_KEEP_STRING).

Definition modified_message (self : Config) : string :=
  "The scenario config file ('" +:+ molecule_file self
  +:+ "') has been modified since the scenario was created. "
  +:+ "If recent changes are important, reset the scenario with 'molecule destroy' to clean up created items or "
  +:+ "'molecule reset' to clear current configuration.".

(** The body of the [state] property. *)
Definition state_body (self : Config) : M nat :=
  myState ← State.new;
  (if negb (String.eqb (molecule_file self) "") && OsPath.isfile fs (molecule_file self)
   then
     modTime ← of_res (OsPath.getmtime fs (molecule_file self));
     recorded ← State.molecule_yml_date_modified myState;
     match recorded with
     | None =>
         State.change_state myState (State.Cmolecule_yml_date_modified (Some modTime))
     | Some t =>
         if negb (t =? modTime)%Z
         then log WARNING (modified_message self)
         else mret tt
     end
   else mret tt);;
  State.new.

(** [state], a [cached_property]: the body runs on the first access and
    its result is kept in the instance. *)
Definition state (self : Config) : M nat :=
  λ w, match w_state_slot w with
       | Some o => (w, Ok o)
       | None =>
           match state_body self w with
           | (w', Ok o) =>
               (mkWorld (w_log w') (w_state_file w') (w_heap w') (Some o), Ok o)
           | (w', Raised e) => (w', Raised e)
           end
       end.

(** [name not in api.drivers()] *)
Definition not_in_drivers (name : value) : res bool :=
  match name with
  | VStr s =>
      match Api.contains str s api_drivers with
      | Ok b => Ok (negb b)
      | Raised e => Raised e
      end
  | _ =>
      match Api.data api_drivers with
      | Ok _ => Ok true
      | Raised e => Raised e
      end
  end.

Definition cli_conflict_message (driver_name driver_from_cli : value) : string :=
  "Instance(s) were created with the '" +:+ py_str repr_container driver_name
  +:+ "' driver, but the " +:+ "subcommand is using '"
  +:+ py_str repr_container driver_from_cli +:+ "' driver.".

Definition not_available_message (self : Config) (driver_name : value) : string :=
  "Driver '" +:+ py_str repr_container driver_name +:+ "' from state-file "
  +:+ "'" +:+ state_file self +:+ "' is not available.".

Definition drift_message (driver_name driver_from_scenario : value) : string :=
  "Driver '" +:+ py_str repr_container driver_name
  +:+ "' is currently in use but the scenario config "
  +:+ "has changed and now defines '" +:+ py_str repr_container driver_from_scenario
  +:+ "'. "
  +:+ "To change drivers, run 'molecule destroy' for converged scenarios or 'molecule reset' otherwise.".

(** [_get_driver_name] *)
Definition _get_driver_name (self : Config) : M value :=
  st ← state self;
  recorded ← State.driver st;
  let driver_from_state_file := of_name recorded in
  let driver_from_cli := of_name (command_args_driver_name self) in
  driver ← of_res (value_getitem (VDict (config self)) "driver");
  driver_from_scenario ← of_res (value_getitem driver "name");
  let driver_name :=
    if py_bool driver_from_state_file then driver_from_state_file
    else if py_bool driver_from_cli then driver_from_cli
    else driver_from_scenario in
  (if py_bool driver_from_cli && negb (value_eqb driver_from_cli driver_name)
   then sysexit_with_message (A := unit)
          (cli_conflict_message driver_name driver_from_cli)
   else mret tt);;
  (if py_bool driver_from_state_file
   then
     missing ← of_res (not_in_drivers driver_name);
     if (missing : bool)
     then state self;;
          sysexit_with_message (A := unit) (not_available_message self driver_name)
     else mret tt
   else mret tt);;
  (if negb (value_eqb driver_from_scenario driver_name)
   then log WARNING (drift_message driver_name driver_from_scenario)
   else mret tt);;
  mret driver_name.

End Resolver.

End Config.

(** * Properties *)

(** ** The name-addressable plugin collection *)

Module UserListMapFacts.

Import Api.

Section Facts.
Context {A : Type}.
Variable str : A → string.

(** Appending the items of [l] one after the other, stopping at the first
    call that raises. *)
Fixpoint append_all (l : list A) (self : gmap string (obj A))
    : gmap string (obj A) * res unit :=
  match l with
  | [] => (self, Ok tt)
  | x :: l' =>
      match append str x self with
      | (self', Ok _) => append_all l' self'
      | (self', Raised e) => (self', Raised e)
      end
  end.

(** A name that is neither that of the backing list nor that of the method
    [append]: an item of such a name can be appended and leaves the
    collection able to take further items. *)
Definition plain (n : string) : Prop := n ≠ "data" ∧ n ≠ "append".

(** The shape of a collection that holds the items [l], none of them
    named ["data"]: the backing list is [l], and every other name maps to
    the last item that bears it. *)
Definition holds (l : list A) (self : gmap string (obj A)) : Prop :=
  self !! "data" = Some (OList l)
  ∧ ∀ n, n ≠ "data" → self !! n = OItem <$> last (filter (λ x, str x = n) l).

Lemma filter_no_match (n : string) (l : list A) :
  (∀ x, x ∈ l → str x ≠ n) → filter (λ x, str x = n) l = [].
Proof.
  induction l as [|y l IH]; intros H; [done|].
  rewrite filter_cons_False by (apply H; left).
  apply IH. intros x Hx. apply H. by right.
Qed.

Lemma holds_new : holds [] new.
Proof.
  split; [reflexivity|].
  intros n Hn. unfold new. rewrite lookup_singleton_ne; done.
Qed.

(** No item bears the name [n]: nothing is stored under [n], and a method
    of that name is found. *)
Lemma holds_unused l self n :
  holds l self → n ≠ "data" → Forall (λ x, str x ≠ n) l →
  self !! n = None ∧ method n self = Ok tt.
Proof.
  intros [_ Hn] Hnd Hl.
  assert (E : self !! n = None).
  { rewrite (Hn n Hnd), (filter_no_match n l); [done|].
    intros x Hx. rewrite Forall_forall in Hl. by apply Hl. }
  split; [exact E|]. unfold method. by rewrite E.
Qed.

(** Some item bears the name [n]: a method of that name is shadowed. *)
Lemma holds_shadowed l self n x :
  holds l self → n ≠ "data" → x ∈ l → str x = n →
  method n self = Raised (TypeError "object is not callable").
Proof.
  intros [_ Hn] Hnd Hx Hxn. unfold method. rewrite (Hn n Hnd).
  destruct (last (filter (λ y, str y = n) l)) as [y|] eqn:Hlast; [done|].
  apply last_None in Hlast.
  assert (Hin : x ∈ filter (λ y, str y = n) l) by (by apply list_elem_of_filter).
  rewrite Hlast in Hin. by apply elem_of_nil in Hin.
Qed.

Lemma append_holds l self x :
  holds l self → Forall (λ y, str y ≠ "append") l → str x ≠ "data" →
  ∃ self', append str x self = (self', Ok tt) ∧ holds (l ++ [x]) self'.
Proof.
  intros H Happ Hx.
  destruct (holds_unused l self "append" H ltac:(discriminate) Happ) as [_ Hm].
  destruct H as [Hd Hn].
  unfold append, UserList_append. rewrite Hm.
  rewrite lookup_insert_ne by done. rewrite Hd.
  eexists; split; [reflexivity|]. split.
  - by rewrite lookup_insert_eq.
  - intros n Hnd. rewrite lookup_insert_ne by done.
    rewrite filter_app, lookup_insert.
    case_decide as Hs.
    + subst n. rewrite filter_cons_True by done.
      rewrite filter_nil. by rewrite last_snoc.
    + rewrite filter_cons_False by done.
      rewrite filter_nil, app_nil_r. by apply Hn.
Qed.

Lemma append_all_app l1 l2 self :
  (append_all l1 self).2 = Ok tt →
  append_all (l1 ++ l2) self = append_all l2 (append_all l1 self).1.
Proof.
  revert self. induction l1 as [|x l1 IH]; intros self; simpl; [done|].
  destruct (append str x self) as [self' [[]|e]]; simpl; [apply IH|done].
Qed.

Lemma append_all_holds l self0 l0 :
  holds l0 self0 → Forall (λ y, str y ≠ "append") l0 → Forall (λ x, plain (str x)) l →
  ∃ self, append_all l self0 = (self, Ok tt) ∧ holds (l0 ++ l) self.
Proof.
  intros H0 Hl0 Hl. revert l0 self0 H0 Hl0.
  induction Hl as [|x l [Hx Hxa] Hl IH]; intros l0 self0 H0 Hl0; simpl.
  - exists self0. by rewrite app_nil_r.
  - destruct (append_holds l0 self0 x H0 Hl0 Hx) as (self1 & -> & H1).
    destruct (IH _ _ H1) as (self & -> & H2).
    { apply Forall_app. split; [done|]. by constructor. }
    exists self. split; [done|]. by rewrite <- app_assoc in H2.
Qed.

(** A collection built by appending items of plain names holds them. *)
Lemma built_holds (l : list A) :
  Forall (λ x, plain (str x)) l →
  (append_all l new).2 = Ok tt ∧ holds l (append_all l new).1.
Proof.
  intros Hl.
  destruct (append_all_holds l new [] holds_new ltac:(constructor) Hl) as (self & E & H).
  rewrite E. done.
Qed.

Lemma plain_not_append (l : list A) :
  Forall (λ x, plain (str x)) l → Forall (λ y, str y ≠ "append") l.
Proof. intros H. eapply Forall_impl; [exact H|]. by intros x [_ ?]. Qed.

Lemma plain_not_data (l : list A) :
  Forall (λ x, plain (str x)) l → Forall (λ y, str y ≠ "data") l.
Proof. intros H. eapply Forall_impl; [exact H|]. by intros x [? _]. Qed.

Lemma list_getitem_last (l : list A) x :
  list_getitem (l ++ [x]) (Z.of_nat (length l)) = Ok x
  ∧ list_getitem (l ++ [x]) (-1) = Ok x.
Proof.
  unfold list_getitem. rewrite length_app. simpl.
  split.
  - destruct (Z.ltb_spec (Z.of_nat (length l)) 0); [lia|].
    destruct (Z.leb_spec 0 (Z.of_nat (length l))); [|lia].
    destruct (Z.ltb_spec (Z.of_nat (length l)) (Z.of_nat (length l + 1))); [|lia].
    simpl. rewrite Nat2Z.id.
    rewrite lookup_app_r by lia. by rewrite Nat.sub_diag.
  - change (-1 <? 0)%Z with true. cbv iota.
    destruct (Z.leb_spec 0 (-1 + Z.of_nat (length l + 1))); [|lia].
    destruct (Z.ltb_spec (-1 + Z.of_nat (length l + 1)) (Z.of_nat (length l + 1))); [|lia].
    simpl.
    replace (Z.to_nat (-1 + Z.of_nat (length l + 1))) with (length l) by lia.
    rewrite lookup_app_r by lia. by rewrite Nat.sub_diag.
Qed.

(** C10 (amended).  In a collection built by appending items none of which
    is named ["data"] or ["append"], appending an item whose name is not
    ["data"] succeeds; the item is then found at the last position (index
    [len - 1], also [-1]) and, by indexing, under its name, and the key
    ["data"] gives the backing list, not a plugin.  When moreover no item,
    this one included, is named ["get"], [get] finds the item under its
    name, returns the default for a name other than ["data"] that no
    appended item bears, and returns the backing list for ["data"]. *)
Theorem append_then_lookup (l : list A) (item : A) (d : obj A) :
  Forall (λ x, plain (str x)) l →
  str item ≠ "data" →
  let self := (append_all l new).1 in
  let self' := (append str item self).1 in
  (append_all l new).2 = Ok tt
  ∧ (append str item self).2 = Ok tt
  ∧ getitem self' (IInt (Z.of_nat (length l))) = Ok (OItem item)
  ∧ getitem self' (IInt (-1)) = Ok (OItem item)
  ∧ getitem self' (IStr (str item)) = Ok (OItem item)
  ∧ getitem self' (IStr "data") = Ok (OList (l ++ [item]))
  ∧ (Forall (λ x, str x ≠ "get") (l ++ [item]) →
     get self' (str item) d = Ok (OItem item)
     ∧ (∀ n, n ≠ "data" → (∀ x, x ∈ l ++ [item] → str x ≠ n) → get self' n d = Ok d)
     ∧ get self' "data" d = Ok (OList (l ++ [item]))).
Proof.
  intros Hl Hitem.
  destruct (built_holds l Hl) as [E0 H0].
  destruct (append_all l new) as [self0 r0]. simpl in E0, H0. subst r0. cbn [fst snd].
  destruct (append_holds l self0 item H0 (plain_not_append l Hl) Hitem) as (self1 & E1 & H1).
  rewrite E1. cbn [fst snd].
  pose proof H1 as [Hd Hn].
  assert (Hname : self1 !! str item = Some (OItem item)).
  { rewrite Hn by done. rewrite filter_app, filter_cons_True by done.
    rewrite filter_nil. by rewrite last_snoc. }
  destruct (list_getitem_last l item) as [Hpos Hneg].
  unfold getitem. rewrite Hd, Hname, Hpos, Hneg.
  repeat split.
  - unfold get.
    destruct (holds_unused _ _ "get" H1 ltac:(discriminate) H) as [_ ->].
    by rewrite Hname.
  - intros n Hnd Hfresh. unfold get.
    destruct (holds_unused _ _ "get" H1 ltac:(discriminate) H) as [_ ->].
    rewrite Hn by done. by rewrite (filter_no_match n (l ++ [item]) Hfresh).
  - unfold get.
    destruct (holds_unused _ _ "get" H1 ltac:(discriminate) H) as [_ ->].
    by rewrite Hd.
Qed.

End Facts.

(** C10, witness: three plugins named by themselves. *)
Lemma append_then_lookup_witness :
  let self' := (append id "podman" (append_all id ["default"; "docker"] new).1).1 in
  getitem self' (IInt 2) = Ok (OItem "podman")
  ∧ getitem self' (IStr "podman") = Ok (OItem "podman")
  ∧ get self' "vagrant" ONone = Ok ONone
  ∧ get self' "data" ONone = Ok (OList ["default"; "docker"; "podman"]).
Proof.
  assert (Hl : Forall (λ x : string, plain (id x)) ["default"; "docker"]).
  { repeat constructor; discriminate. }
  destruct (append_then_lookup id ["default"; "docker"] "podman" ONone Hl ltac:(discriminate))
    as (_ & _ & H2 & _ & H4 & _ & Hget).
  destruct Hget as (_ & H6 & H8).
  { repeat constructor; discriminate. }
  split; [exact H2|]. split; [exact H4|]. split; [|exact H8].
  apply H6; [discriminate|].
  intros x. unfold id. simpl. rewrite !elem_of_cons, elem_of_nil.
  intros [->|[->|[->|[]]]]; discriminate.
Defined.

(** C10, counterexample to the claim as stated, in three parts.  Appending
    a plugin named ["data"] to an empty collection overwrites the backing
    list with the plugin before [UserList.append] runs, so the call raises,
    the key ["data"] then yields that plugin rather than a list, and nothing
    is found by position.  A plugin named ["get"] is appended and found by
    indexing, but takes the place of the method: every [get] raises
    [TypeError] from then on.  A plugin named ["append"] takes the place of
    that method: the next [append] raises, and the item it was given is
    found neither by position nor by name. *)
Lemma reserved_names_counterexample :
  (let self' := (append id "data" (new (A := string))).1 in
   (append id "data" (new (A := string))).2
     = Raised (AttributeError "object has no attribute 'append'")
   ∧ get self' "data" ONone = Ok (OItem "data")
   ∧ getitem self' (IStr "data") = Ok (OItem "data")
   ∧ (¬ ∃ backing, get self' "data" ONone = Ok (OList backing))
   ∧ (¬ ∃ i, getitem self' (IInt i) = Ok (OItem "data")))
  ∧ (let self' := (append id "get" (new (A := string))).1 in
     (append id "get" (new (A := string))).2 = Ok tt
     ∧ getitem self' (IStr "get") = Ok (OItem "get")
     ∧ ∀ key d, get self' key d = Raised (TypeError "object is not callable"))
  ∧ (let self' := (append id "append" (new (A := string))).1 in
     let self'' := (append id "docker" self').1 in
     (append id "append" (new (A := string))).2 = Ok tt
     ∧ (append id "docker" self').2 = Raised (TypeError "object is not callable")
     ∧ getitem self'' (IInt 1) = Raised IndexError
     ∧ getitem self'' (IStr "docker") = Raised (KeyError "docker")).
Proof.
  split; [|split].
  - assert (E : append id "data" (new (A := string))
                = (<[ "data" := OItem "data" ]> new,
                   Raised (AttributeError "object has no attribute 'append'"))).
    { vm_compute. reflexivity. }
    rewrite E. cbn [fst snd]. unfold get, getitem, method.
    rewrite lookup_insert_eq.
    assert ((<[ "data" := OItem "data" ]> (new (A := string))) !! "get" = None) as ->.
    { vm_compute. reflexivity. }
    repeat split; [intros [b Hb]; discriminate | intros [i Hi]; discriminate].
  - assert (E : append id "get" (new (A := string))
                = (<[ "data" := OList ["get"] ]> (<[ "get" := OItem "get" ]> new), Ok tt)).
    { vm_compute. reflexivity. }
    rewrite E. cbn [fst snd]. split; [done|]. split; [vm_compute; reflexivity|].
    intros key d. unfold get, method.
    rewrite lookup_insert_ne by done. by rewrite lookup_insert_eq.
  - repeat split; vm_compute; reflexivity.
Qed.

End UserListMapFacts.

(** ** The plugin registries *)

Module RegistryFacts.

Import Api UserListMapFacts.

(** Appending records to the log leaves the rest of the world alone. *)
Definition add_log (recs : list log_record) (w : World) : World :=
  mkWorld (w_log w ++ recs) (w_state_file w) (w_heap w) (w_state_slot w).

Lemma add_log_nil w : add_log [] w = w.
Proof. destruct w. unfold add_log. simpl. by rewrite app_nil_r. Qed.

Lemma add_log_add_log r1 r2 w : add_log r2 (add_log r1 w) = add_log (r1 ++ r2) w.
Proof. unfold add_log. simpl. by rewrite app_assoc. Qed.

Section Facts.
Context {C A : Type}.
Variable str : A → string.
Variable lt : A → A → bool.
Variable format_exc : exc → string.

(** The plugins whose constructor returned, in registration order. *)
Definition loaded (config : C) (ps : list (Factory C A)) : list A :=
  omap (λ p, match construct p config with Ok a => Some a | Raised _ => None end) ps.

(** The records logged for the plugins whose constructor raised. *)
Definition failures (config : C) (ps : list (Factory C A)) : list log_record :=
  omap (λ p, match construct p config with
             | Ok _ => None
             | Raised e =>
                 Some (ERROR, "Failed to load " +:+ get_name p +:+ " driver: " +:+ exc_str e)
             end) ps.

(** Every constructor either returns a plugin of a plain name or raises
    an exception the loop catches. *)
Definition loadable (caught : exc → bool) (config : C) (ps : list (Factory C A)) : Prop :=
  Forall (λ p, match construct p config with
               | Ok a => plain (str a)
               | Raised e => caught e = true
               end) ps.

(** A name under which a plugin can be registered without breaking the
    registry: it is plain and is not that of the method [sort]. *)
Definition registrable (n : string) : Prop := plain n ∧ n ≠ "sort".

Lemma loadable_loaded caught config ps :
  loadable caught config ps → Forall (λ a, plain (str a)) (loaded config ps).
Proof.
  unfold loadable, loaded. induction 1 as [|p ps Hp _ IH]; simpl; [constructor|].
  destruct (construct p config); [by constructor | done].
Qed.

Lemma registrable_loadable caught config ps :
  (∀ e, caught e = true) →
  Forall (λ a, registrable (str a)) (loaded config ps) →
  loadable caught config ps.
Proof.
  intros Hc. unfold loadable, loaded. induction ps as [|p ps IH]; simpl; intros H; [done|].
  constructor.
  - destruct (construct p config) as [a|e]; [|apply Hc].
    by apply Forall_cons in H as [[Ha _] _].
  - apply IH. destruct (construct p config) as [a|e]; [|done].
    by apply Forall_cons in H as [_ H].
Qed.

Lemma registrable_not_sort (l : list A) :
  Forall (λ a, registrable (str a)) l → Forall (λ a, str a ≠ "sort") l.
Proof. intros H. eapply Forall_impl; [exact H|]. by intros x [_ ?]. Qed.


Lemma insert_sorted_perm x l : insert_sorted lt x l ≡ₚ x :: l.
Proof.
  induction l as [|y l IH]; simpl; [done|].
  destruct (lt y x); [|done].
  rewrite IH. apply Permutation_swap.
Qed.

Lemma sorted_perm l : sorted lt l ≡ₚ l.
Proof.
  induction l as [|x l IH]; simpl; [done|].
  unfold sorted in IH. by rewrite insert_sorted_perm, IH.
Qed.

Lemma load_plugins_spec caught config ps :
  loadable caught config ps →
  ∀ l plugins w, holds str l plugins → Forall (λ y, str y ≠ "append") l →
    ∃ plugins',
      load_plugins str caught config plugins ps w
        = (add_log (failures config ps) w, Ok plugins')
      ∧ holds str (l ++ loaded config ps) plugins'.
Proof.
  induction 1 as [|p ps Hp Hps IH]; intros l plugins w Hl Happ; simpl.
  - exists plugins. by rewrite add_log_nil, app_nil_r.
  - unfold mbind, M_bind, Py.bind, load_plugin, loaded, failures. simpl.
    fold (loaded config ps). fold (failures config ps).
    destruct (construct p config) as [a|e].
    + destruct Hp as [Hpd Hpa].
      destruct (append_holds str l plugins a Hl Happ Hpd) as (plugins1 & -> & H1).
      simpl. destruct (IH _ _ w H1) as (plugins' & -> & H').
      { apply Forall_app. split; [done|]. by constructor. }
      exists plugins'. split; [done|]. by rewrite <- app_assoc in H'.
    + rewrite Hp. simpl.
      destruct (IH _ _ (add_log [(ERROR, "Failed to load " +:+ get_name p
                                    +:+ " driver: " +:+ exc_str e)] w) Hl Happ)
        as (plugins' & E & H').
      exists plugins'. split; [|done].
      unfold log, mret, M_ret, Py.ret. simpl.
      rewrite add_log_add_log in E. exact E.
Qed.

Lemma sort_and_return_spec l plugins w :
  holds str l plugins → Forall (λ y, str y ≠ "sort") l →
  ∃ plugins',
    sort_and_return lt plugins w = (w, Ok plugins')
    ∧ plugins' !! "data" = Some (OList (sorted lt l))
    ∧ ∀ n, n ≠ "data" → plugins' !! n = plugins !! n.
Proof.
  intros H Hsort.
  destruct (holds_unused str l plugins "sort" H ltac:(discriminate) Hsort) as [_ Hm].
  destruct H as [Hd Hn].
  unfold sort_and_return, sort, UserList_sort. rewrite Hm, Hd.
  eexists. split; [reflexivity|]. split.
  - by rewrite lookup_insert_eq.
  - intros n Hnd. by rewrite lookup_insert_ne.
Qed.

(** The loop followed by [plugins.sort()], from an empty collection: when
    every plugin that is constructed has a registrable name, the collection
    returned has the sorted list of those plugins as its backing list and
    maps every other name to the last plugin that bears it. *)
Lemma registry_built caught config ps w :
  loadable caught config ps →
  Forall (λ a, str a ≠ "sort") (loaded config ps) →
  ∃ plugins,
    (plugins ← load_plugins str caught config new ps; sort_and_return lt plugins) w
      = (add_log (failures config ps) w, Ok plugins)
    ∧ plugins !! "data" = Some (OList (sorted lt (loaded config ps)))
    ∧ ∀ n, n ≠ "data" →
        plugins !! n = OItem <$> last (filter (λ x, str x = n) (loaded config ps)).
Proof.
  intros Hload Hsort.
  destruct (load_plugins_spec caught config ps Hload [] new w (holds_new str)
              ltac:(constructor)) as (plugins1 & E1 & H1).
  simpl in H1.
  destruct (sort_and_return_spec _ _ (add_log (failures config ps) w) H1 Hsort)
    as (plugins2 & E2 & Hd & Hn).
  exists plugins2. split; [|split].
  - unfold mbind, M_bind, Py.bind. by rewrite E1, E2.
  - exact Hd.
  - intros n Hnd. rewrite (Hn n Hnd). by apply H1.
Qed.

(** What the handler of [load_setuptools_entrypoints] logs. *)
Definition entry_point_failure (group : string) (r : res unit) : list log_record :=
  match r with
  | Ok _ => []
  | Raised e =>
      [(ERROR, "Failed to load " +:+ group +:+ " entry point " +:+ format_exc e)]
  end.

Lemma Exception_or_SystemExit_any e : Exception_or_SystemExit e = true.
Proof. by destruct e. Qed.

Lemma contains_loaded (l : list A) plugins a :
  plugins !! "data" = Some (OList l) → a ∈ l →
  contains str (str a) plugins = Ok true.
Proof.
  intros Hd Ha. unfold contains, data. rewrite Hd. f_equal.
  apply existsb_exists. exists a. split; [by apply list_elem_of_In|].
  apply String.eqb_refl.
Qed.

(** The driver registry isolates every failure of a plugin constructor:
    the call returns, its backing list is the sorted list of the plugins
    that loaded, each of them is found by [in], and one error is logged
    per plugin that raised. *)
Theorem drivers_isolate_failures (pm : PluginManager C A) (config : C) (w : World) :
  Forall (λ a, registrable (str a)) (loaded config (get_plugins pm)) →
  ∃ plugins,
    drivers str lt format_exc pm config w
      = (add_log (entry_point_failure "driver" (load_setuptools_entrypoints pm)
                  ++ failures config (get_plugins pm)) w,
         Ok plugins)
    ∧ data plugins = Ok (sorted lt (loaded config (get_plugins pm)))
    ∧ sorted lt (loaded config (get_plugins pm)) ≡ₚ loaded config (get_plugins pm)
    ∧ ∀ a, a ∈ loaded config (get_plugins pm) → contains str (str a) plugins = Ok true.
Proof.
  intros Hnames.
  pose proof (registrable_loadable Exception_or_SystemExit config _
                Exception_or_SystemExit_any Hnames) as Hload.
  set (w1 := add_log (entry_point_failure "driver" (load_setuptools_entrypoints pm)) w).
  destruct (registry_built Exception_or_SystemExit config _ w1 Hload
              (registrable_not_sort _ Hnames)) as (plugins & E & Hd & Hn).
  exists plugins. split; [|split; [|split]].
  - unfold mbind, M_bind, Py.bind in E.
    unfold drivers, mbind, M_bind, Py.bind, try_except, of_res.
    assert (Hentry :
      match load_setuptools_entrypoints pm with
      | Ok a => (w, Ok a)
      | Raised e =>
          if Exception_or_SystemExit e
          then log ERROR ("Failed to load driver entry point " +:+ format_exc e) w
          else (w, Raised e)
      end = (w1, Ok tt)).
    { subst w1. destruct (load_setuptools_entrypoints pm) as [[]|e]; simpl.
      - by rewrite add_log_nil.
      - by rewrite Exception_or_SystemExit_any. }
    rewrite Hentry, E. subst w1. by rewrite add_log_add_log.
  - unfold data. by rewrite Hd.
  - apply sorted_perm.
  - intros a Ha. eapply contains_loaded; [exact Hd|].
    by rewrite sorted_perm.
Qed.

(** The verifier registry does the same for failures that derive from
    [Exception]. *)
Theorem verifiers_isolate_exceptions (pm : PluginManager C A) (config : C) (w : World) :
  match load_setuptools_entrypoints pm with
  | Ok _ => True
  | Raised e => is_Exception e = true
  end →
  loadable is_Exception config (get_plugins pm) →
  Forall (λ a, str a ≠ "sort") (loaded config (get_plugins pm)) →
  ∃ plugins,
    verifiers str lt format_exc pm config w
      = (add_log (entry_point_failure "verifier" (load_setuptools_entrypoints pm)
                  ++ failures config (get_plugins pm)) w,
         Ok plugins)
    ∧ data plugins = Ok (sorted lt (loaded config (get_plugins pm)))
    ∧ sorted lt (loaded config (get_plugins pm)) ≡ₚ loaded config (get_plugins pm)
    ∧ ∀ a, a ∈ loaded config (get_plugins pm) → contains str (str a) plugins = Ok true.
Proof.
  intros Hep Hload Hsort.
  set (w1 := add_log (entry_point_failure "verifier" (load_setuptools_entrypoints pm)) w).
  destruct (registry_built is_Exception config _ w1 Hload Hsort) as (plugins & E & Hd & Hn).
  exists plugins. split; [|split; [|split]].
  - unfold mbind, M_bind, Py.bind in E.
    unfold verifiers, mbind, M_bind, Py.bind, try_except, of_res.
    assert (Hentry :
      match load_setuptools_entrypoints pm with
      | Ok a => (w, Ok a)
      | Raised e =>
          if is_Exception e
          then log ERROR ("Failed to load verifier entry point " +:+ format_exc e) w
          else (w, Raised e)
      end = (w1, Ok tt)).
    { subst w1. destruct (load_setuptools_entrypoints pm) as [[]|e]; simpl.
      - by rewrite add_log_nil.
      - by rewrite Hep. }
    rewrite Hentry, E. subst w1. by rewrite add_log_add_log.
  - unfold data. by rewrite Hd.
  - apply sorted_perm.
  - intros a Ha. eapply contains_loaded; [exact Hd|].
    by rewrite sorted_perm.
Qed.

(** In the verifier loop a constructor that raises [SystemExit] is not
    caught: the exception leaves [verifiers] at that plugin, whatever
    loaded before it. *)
Lemma load_plugins_system_exit config ps1 p ps2 msg :
  loadable is_Exception config ps1 →
  construct p config = Raised (SystemExit msg) →
  ∀ l plugins w, holds str l plugins → Forall (λ y, str y ≠ "append") l →
    load_plugins str is_Exception config plugins (ps1 ++ p :: ps2) w
      = (add_log (failures config ps1) w, Raised (SystemExit msg)).
Proof.
  intros Hps1 Hp. induction Hps1 as [|q ps1 Hq Hps1 IH]; intros l plugins w Hl Happ; simpl.
  - unfold mbind, M_bind, Py.bind, load_plugin. rewrite Hp. simpl.
    by rewrite add_log_nil.
  - unfold mbind, M_bind, Py.bind, load_plugin, failures. simpl.
    fold (failures config ps1).
    destruct (construct q config) as [a|e].
    + destruct Hq as [Hqd Hqa].
      destruct (append_holds str l plugins a Hl Happ Hqd) as (plugins1 & -> & H1).
      simpl. apply (IH (l ++ [a])); [done|].
      apply Forall_app. split; [done|]. by constructor.
    + rewrite Hq. simpl.
      pose proof (IH l plugins
                    (add_log [(ERROR, "Failed to load " +:+ get_name q
                                 +:+ " driver: " +:+ exc_str e)] w) Hl Happ) as E.
      rewrite add_log_add_log in E. exact E.
Qed.

End Facts.

(** Two plugin classes named by strings: one whose constructor returns and
    one whose constructor calls [sys.exit], as a sanity check that fails
    does. *)
Definition ansible_plugin : Factory unit string :=
  mkFactory "ansible" (λ _, Ok "ansible").

Definition exiting_plugin : Factory unit string :=
  mkFactory "broken" (λ _, Raised (SystemExit "1")).

Definition raising_plugin : Factory unit string :=
  mkFactory "broken" (λ _, Raised (Exception "boom")).

(** C7.  A plugin constructor that raises [SystemExit] is isolated by
    [drivers], which logs one error and returns the collection holding the
    well-formed plugin only, but not by [verifiers]: there the exception
    leaves the registry construction and no collection is returned.  A
    constructor that raises an [Exception] is isolated by both. *)
Theorem verifiers_system_exit_escapes :
  let pm := mkPluginManager (Ok tt) [ansible_plugin; exiting_plugin] in
  let pm' := mkPluginManager (Ok tt) [ansible_plugin; raising_plugin] in
  verifiers id String.ltb exc_str pm tt empty_world
    = (empty_world, Raised (SystemExit "1"))
  ∧ (∃ plugins,
       drivers id String.ltb exc_str pm tt empty_world
         = (add_log [(ERROR, "Failed to load broken driver: 1")] empty_world, Ok plugins)
       ∧ data plugins = Ok ["ansible"])
  ∧ (∃ plugins,
       verifiers id String.ltb exc_str pm' tt empty_world
         = (add_log [(ERROR, "Failed to load broken driver: boom")] empty_world, Ok plugins)
       ∧ data plugins = Ok ["ansible"]).
Proof.
  intros pm pm'. split; [|split].
  - unfold verifiers, mbind, M_bind, Py.bind, try_except, of_res. simpl.
    pose proof (load_plugins_system_exit id tt [ansible_plugin] exiting_plugin [] "1") as H.
    simpl in H.
    rewrite (H ltac:(repeat constructor; discriminate) eq_refl [] new empty_world
               (holds_new id) ltac:(constructor)).
    by rewrite add_log_nil.
  - destruct (drivers_isolate_failures id String.ltb exc_str pm tt empty_world)
      as (plugins & E & Hd & _).
    { repeat constructor; discriminate. }
    exists plugins. split; [exact E | exact Hd].
  - destruct (verifiers_isolate_exceptions id String.ltb exc_str pm' tt empty_world)
      as (plugins & E & Hd & _).
    { exact I. }
    { repeat constructor; discriminate. }
    { repeat constructor; discriminate. }
    exists plugins. split; [exact E | exact Hd].
Qed.

End RegistryFacts.

(** ** Parsed values *)

Module ValueFacts.






End ValueFacts.

(** ** The [state] property and the freshness check *)

Module StateFacts.

Import Config RegistryFacts.

Section Facts.
Variable fs : gmap string OsPath.node.

(** What a [State] constructed in world [w] holds: the record of the state
    file, or the defaults when no state file was written yet. *)
Definition recorded (w : World) : StateData :=
  default State.default_data (w_state_file w).

Lemma lookup_snoc_length {T} (l : list T) (x : T) : (l ++ [x]) !! length l = Some x.
Proof. rewrite lookup_app_r by lia. by rewrite Nat.sub_diag. Qed.

Lemma insert_snoc_length {T} (l : list T) (x y : T) :
  <[ length l := y ]> (l ++ [x]) = l ++ [y].
Proof.
  rewrite insert_app_r_alt by lia. by rewrite Nat.sub_diag.
Qed.

(** The body of [state] when the scenario file is not a file on disk: two
    objects are constructed, the second is returned, nothing else happens. *)
Lemma state_body_no_file (self : Config) (w : World) :
  negb (String.eqb (molecule_file self) "") && OsPath.isfile fs (molecule_file self) = false →
  state_body fs self w
    = (mkWorld (w_log w) (w_state_file w) (w_heap w ++ [recorded w] ++ [recorded w])
               (w_state_slot w),
       Ok (S (length (w_heap w)))).
Proof.
  intros Hno. unfold state_body, mbind, M_bind, Py.bind, State.new. simpl.
  rewrite Hno. simpl. unfold recorded. rewrite length_app. simpl.
  rewrite <- app_assoc. do 2 f_equal. lia.
Qed.

(** The body of [state] when the scenario file exists. *)
Lemma state_body_file (self : Config) (w : World) (content : string) (modTime : Z) :
  molecule_file self ≠ "" →
  fs !! molecule_file self = Some (OsPath.File content modTime) →
  state_body fs self w
    = match sd_molecule_yml_date_modified (recorded w) with
      | None =>
          let d := State.apply_change
                     (State.Cmolecule_yml_date_modified (Some modTime)) (recorded w) in
          (mkWorld (w_log w) (Some d) (w_heap w ++ [d] ++ [d]) (w_state_slot w),
           Ok (S (length (w_heap w))))
      | Some t =>
          (mkWorld (w_log w ++ (if negb (t =? modTime)%Z
                                then [(WARNING, modified_message self)] else []))
                   (w_state_file w) (w_heap w ++ [recorded w] ++ [recorded w])
                   (w_state_slot w),
           Ok (S (length (w_heap w))))
      end.
Proof.
  intros Hset Hfile.
  assert (Hcond : negb (String.eqb (molecule_file self) "")
                  && OsPath.isfile fs (molecule_file self) = true).
  { unfold OsPath.isfile. rewrite Hfile.
    destruct (String.eqb_spec (molecule_file self) ""); done. }
  unfold state_body, mbind, M_bind, Py.bind, State.new. simpl.
  rewrite Hcond. unfold of_res, OsPath.getmtime. rewrite Hfile.
  unfold State.molecule_yml_date_modified, State.data, mbind, M_bind, Py.bind. simpl.
  rewrite lookup_snoc_length. simpl. fold (recorded w).
  destruct (sd_molecule_yml_date_modified (recorded w)) as [t|] eqn:Ht.
  - destruct (negb (t =? modTime)%Z); simpl.
    + rewrite length_app. simpl. rewrite <- app_assoc.
      do 2 f_equal. lia.
    + rewrite length_app, app_nil_r. simpl. rewrite <- app_assoc.
      do 2 f_equal. lia.
  - unfold State.change_state. simpl. rewrite lookup_snoc_length. simpl.
    rewrite insert_snoc_length, length_app. simpl. rewrite <- app_assoc.
    do 2 f_equal. lia.
Qed.

(** C8.  First access to [state] (the memo slot is empty) with the scenario
    file on disk, last modified at [modTime].  The property constructs one
    [State] for the check and returns a second one, constructed afterwards
    from the state file.  If no timestamp was recorded, [modTime] is
    recorded in the state file; if another timestamp was recorded, one
    warning is logged and the state file is left alone; the call returns in
    every case. *)
Theorem state_first_access (self : Config) (w : World) (content : string) (modTime : Z) :
  w_state_slot w = None →
  molecule_file self ≠ "" →
  fs !! molecule_file self = Some (OsPath.File content modTime) →
  let checked := length (w_heap w) in
  let returned := S (length (w_heap w)) in
  ∃ w',
    state fs self w = (w', Ok returned)
    ∧ returned ≠ checked
    ∧ w_heap w !! checked = None ∧ w_heap w !! returned = None
    ∧ is_Some (w_heap w' !! checked)
    ∧ w_heap w' !! returned = Some (recorded w')
    ∧ w_state_slot w' = Some returned
    ∧ match sd_molecule_yml_date_modified (recorded w) with
      | None =>
          w_state_file w'
            = Some (State.apply_change
                      (State.Cmolecule_yml_date_modified (Some modTime)) (recorded w))
          ∧ sd_molecule_yml_date_modified (recorded w') = Some modTime
          ∧ w_log w' = w_log w
      | Some t =>
          w_state_file w' = w_state_file w
          ∧ (t ≠ modTime → w_log w' = w_log w ++ [(WARNING, modified_message self)])
          ∧ (t = modTime → w_log w' = w_log w)
      end.
Proof.
  intros Hslot Hset Hfile checked returned.
  unfold state. rewrite Hslot.
  rewrite (state_body_file self w content modTime Hset Hfile).
  assert (Hc : w_heap w !! checked = None) by (apply lookup_ge_None_2; lia).
  assert (Hr : w_heap w !! returned = None) by (apply lookup_ge_None_2; subst returned; lia).
  destruct (sd_molecule_yml_date_modified (recorded w)) as [t|] eqn:Ht; cbn zeta.
  - eexists. split; [reflexivity|]. cbn [w_heap w_log w_state_file w_state_slot].
    split; [subst returned checked; lia|]. split; [done|]. split; [done|].
    split; [|split; [|split; [done|]]].
    + rewrite lookup_app_r by (subst checked; lia).
      subst checked. rewrite Nat.sub_diag. by eexists.
    + rewrite lookup_app_r by (subst returned; lia).
      subst returned. by replace (S (length (w_heap w)) - length (w_heap w)) with 1 by lia.
    + split; [done|]. split.
      * intros Hne. by destruct (Z.eqb_spec t modTime).
      * intros ->. by rewrite Z.eqb_refl, app_nil_r.
  - eexists. split; [reflexivity|]. cbn [w_heap w_log w_state_file w_state_slot].
    split; [subst returned checked; lia|]. split; [done|]. split; [done|].
    split; [|split; [|split; [done|]]].
    + rewrite lookup_app_r by (subst checked; lia).
      subst checked. rewrite Nat.sub_diag. by eexists.
    + rewrite lookup_app_r by (subst returned; lia).
      subst returned. by replace (S (length (w_heap w)) - length (w_heap w)) with 1 by lia.
    + done.
Qed.


(** [state] never raises, and it leaves its result in the memo slot. *)
Lemma state_returns (self : Config) (w : World) :
  ∃ w' o, state fs self w = (w', Ok o) ∧ w_state_slot w' = Some o.
Proof.
  unfold state. destruct (w_state_slot w) as [o|] eqn:Hslot; [by exists w, o|].
  destruct (negb (String.eqb (molecule_file self) "")
            && OsPath.isfile fs (molecule_file self)) eqn:Hcond.
  - apply andb_true_iff in Hcond as [Hset Hfile].
    unfold OsPath.isfile in Hfile.
    destruct (fs !! molecule_file self) as [[t|c t]|] eqn:Hnode; try discriminate.
    rewrite (state_body_file self w c t); [|by destruct (String.eqb_spec (molecule_file self) "")|done].
    destruct (sd_molecule_yml_date_modified (recorded w)); cbn zeta; by eexists _, _.
  - rewrite (state_body_no_file self w Hcond). by eexists _, _.
Qed.

End Facts.

(** C8, witness: a scenario whose file was last modified at time 1700000000
    and whose state file does not exist yet. *)
Lemma state_first_access_witness :
  let self := mkConfig "/r/molecule/default/molecule.yml" None None None [] in
  let fs : gmap string OsPath.node :=
    {[ "/r/molecule/default/molecule.yml" := OsPath.File "---" 1700000000 ]} in
  ∃ w',
    state fs self empty_world = (w', Ok 1)
    ∧ w_heap w' !! 1 = Some (recorded w')
    ∧ sd_molecule_yml_date_modified (recorded w') = Some 1700000000%Z
    ∧ w_log w' = [].
Proof.
  intros self fs.
  destruct (state_first_access fs self empty_world "---" 1700000000)
    as (w' & E & _ & _ & _ & _ & Hfresh & _ & Hfile & Hrec & Hlog).
  - reflexivity.
  - discriminate.
  - apply lookup_singleton_eq.
  - exists w'. split; [exact E|]. split; [exact Hfresh|]. split; [exact Hrec | exact Hlog].
Defined.

End StateFacts.

(** ** Driver name resolution *)

Module DriverFacts.

Import Config RegistryFacts StateFacts ValueFacts.

Section Facts.
Context {A : Type}.
Variable str : A → string.
Variable fs : gmap string OsPath.node.
Variable state_file : Config → string.
Variable api_drivers : gmap string (Api.obj A).
Variable repr_container : value → string.

(** [self.state.driver], the first read of [_get_driver_name]. *)
Definition read_state_driver (self : Config) : M (option string) :=
  st ← state fs self; State.driver st.








End Facts.





(** Registries with and without the docker driver. *)
Definition with_docker : gmap string (Api.obj string) :=
  (UserListMapFacts.append_all id ["default"; "docker"] Api.new).1.












End DriverFacts.

(** ** Interpolation failures *)

Module InterpolateFacts.

Import Config.

Section Facts.
Variable fs : gmap string OsPath.node.
Variable interpolate : gmap string string → string → option string → res string.
Variable safe_load : string → res (list (string * value)).
Variable safe_load_file : string → res (list (string * string)).
Variable abs_path : option string → option string.


End Facts.




End InterpolateFacts.

(** ** Mappings and the deep merge *)

Module MergeFacts.

Import ValueFacts.

(** [v[k1][k2]...], when every step finds a mapping that has the key. *)
Fixpoint lookup_path (p : list string) (v : value) : option value :=
  match p with
  | [] => Some v
  | k :: p' =>
      match v with
      | VDict d =>
          match dict_get k d with
          | Some v' => lookup_path p' v'
          | None => None
          end
      | _ => None
      end
  end.

(** A later source [v] leaves the path [p] of the earlier source in place:
    wherever it has something under a proper prefix of [p], it is a
    mapping. *)
Fixpoint keeps (p : list string) (v : value) : Prop :=
  match p with
  | [] => True
  | k :: p' =>
      match v with
      | VDict d => Forall (λ kv, kv.1 = k → keeps p' kv.2) d
      | _ => False
      end
  end.

(** The value [merge_dicts a b] stores under a key that [b] binds to [v]. *)
Definition merged_entry (a : list (string * value)) (k : string) (v : value) : value :=
  match dict_get k a with
  | Some a' => merge_value a' v
  | None => v
  end.

Lemma merge_value_dict a b : merge_value (VDict a) (VDict b) = VDict (merge_dicts a b).
Proof. reflexivity. Qed.

Lemma merge_value_not_dict a v : (∀ d, v ≠ VDict d) → merge_value a v = v.
Proof. intros H. destruct a; destruct v; try done. by destruct (H d0). Qed.

Section Dict.
Context {V : Type}.

Lemma dict_get_set_eq k (v : V) d : dict_get k (dict_set k v d) = Some v.
Proof.
  induction d as [|[k' v'] d IH]; simpl.
  - by rewrite String.eqb_refl.
  - destruct (String.eqb_spec k' k) as [->|Hne]; simpl.
    + by rewrite String.eqb_refl.
    + destruct (String.eqb_spec k' k); [done|]. exact IH.
Qed.

Lemma dict_get_set_ne k k' (v : V) d : k ≠ k' → dict_get k' (dict_set k v d) = dict_get k' d.
Proof.
  intros Hne. induction d as [|[k0 v0] d IH]; simpl.
  - destruct (String.eqb_spec k k'); done.
  - destruct (String.eqb_spec k0 k) as [->|Hk]; simpl.
    + destruct (String.eqb_spec k k'); done.
    + destruct (String.eqb_spec k0 k'); [done|]. exact IH.
Qed.

Lemma dict_get_app k (d1 d2 : list (string * V)) :
  dict_get k (d1 ++ d2)
  = match dict_get k d1 with Some v => Some v | None => dict_get k d2 end.
Proof.
  induction d1 as [|[k' v'] d1 IH]; simpl; [done|].
  destruct (String.eqb k' k); [done | exact IH].
Qed.

Lemma dict_get_None k (d : list (string * V)) :
  dict_get k d = None ↔ k ∉ map fst d.
Proof.
  induction d as [|[k' v'] d IH]; simpl.
  - split; [intros _; apply not_elem_of_nil | done].
  - rewrite not_elem_of_cons. destruct (String.eqb_spec k' k) as [->|Hne].
    + split; [done | by intros [? _]].
    + rewrite IH. split; [by intros ? | by intros [_ ?]].
Qed.

Lemma dict_get_Some_elem k (v : V) d : dict_get k d = Some v → (k, v) ∈ d.
Proof.
  induction d as [|[k' v'] d IH]; simpl; [done|].
  destruct (String.eqb_spec k' k) as [->|Hne].
  - intros [= ->]. by left.
  - intros H. right. by apply IH.
Qed.

(** With unique keys the last binding of a key is its only one. *)
Lemma dict_get_reverse k (d : list (string * V)) :
  NoDup (map fst d) → dict_get k (reverse d) = dict_get k d.
Proof.
  induction d as [|[k' v'] d IH]; simpl; [done|].
  intros Hnd. apply NoDup_cons in Hnd as [Hk' Hnd].
  rewrite reverse_cons, dict_get_app, (IH Hnd). simpl.
  destruct (String.eqb_spec k' k) as [->|Hne].
  - by apply dict_get_None in Hk' as ->.
  - by destruct (dict_get k d).
Qed.

End Dict.

(** The lookups of a merge: a key of the later source holds its last binding
    there, merged with the earlier source's value; any other key holds what
    the earlier source has. *)
Lemma dict_get_merge_fold a b : ∀ result k,
  dict_get k (fold_left (λ result kv, dict_set kv.1 (merged_entry a kv.1 kv.2) result) b result)
  = match dict_get k (reverse b) with
    | Some v => Some (merged_entry a k v)
    | None => dict_get k result
    end.
Proof.
  induction b as [|[k' v'] b IH]; intros result k; simpl; [done|].
  rewrite IH, reverse_cons, dict_get_app. simpl.
  destruct (dict_get k (reverse b)); [done|].
  destruct (String.eqb_spec k' k) as [->|Hne].
  - apply dict_get_set_eq.
  - by apply dict_get_set_ne.
Qed.

Lemma dict_get_merge_dicts a b k :
  dict_get k (merge_dicts a b)
  = match dict_get k (reverse b) with
    | Some v => Some (merged_entry a k v)
    | None => dict_get k a
    end.
Proof. apply (dict_get_merge_fold a b a k). Qed.

Lemma dict_get_merge_dicts_nodup a b k :
  NoDup (map fst b) →
  dict_get k (merge_dicts a b)
  = match dict_get k b with
    | Some v => Some (merged_entry a k v)
    | None => dict_get k a
    end.
Proof. intros H. by rewrite dict_get_merge_dicts, dict_get_reverse. Qed.

Lemma dict_get_reverse_None {V} k (d : list (string * V)) :
  dict_get k d = None → dict_get k (reverse d) = None.
Proof.
  rewrite !dict_get_None. intros H Hin. apply H.
  apply list_elem_of_fmap in Hin as (kv & -> & Hkv).
  apply list_elem_of_fmap. exists kv. split; [done|].
  rewrite elem_of_reverse in Hkv. exact Hkv.
Qed.

Lemma dict_get_merge_dicts_absent a b k :
  dict_get k a = None → dict_get k b = None → dict_get k (merge_dicts a b) = None.
Proof.
  intros Ha Hb. by rewrite dict_get_merge_dicts, (dict_get_reverse_None k b Hb).
Qed.

Lemma dict_get_merge_all_absent docs : ∀ a k,
  dict_get k a = None → Forall (λ d, dict_get k d = None) docs →
  dict_get k (fold_left merge_dicts docs a) = None.
Proof.
  induction docs as [|d docs IH]; intros a k Ha Hdocs; simpl; [done|].
  apply Forall_cons in Hdocs as [Hd Hdocs].
  apply IH; [|done]. by apply dict_get_merge_dicts_absent.
Qed.

(** Merging never removes a key of the earlier source. *)
Lemma dict_get_merge_dicts_is_Some a b k :
  is_Some (dict_get k a) → is_Some (dict_get k (merge_dicts a b)).
Proof.
  intros Ha. rewrite dict_get_merge_dicts. by destruct (dict_get k (reverse b)).
Qed.

Lemma dict_get_merge_all_is_Some docs : ∀ a k,
  is_Some (dict_get k a) → is_Some (dict_get k (fold_left merge_dicts docs a)).
Proof.
  induction docs as [|d docs IH]; intros a k Ha; simpl; [done|].
  apply IH. by apply dict_get_merge_dicts_is_Some.
Qed.

(** A path of the earlier source is still there after the merge when the
    later source keeps it. *)
Lemma lookup_path_merge_value p : ∀ a v,
  is_Some (lookup_path p a) → keeps p v → is_Some (lookup_path p (merge_value a v)).
Proof.
  induction p as [|k p IH]; intros a v Ha Hv; [by eexists|].
  destruct a as [| | | | |da]; simpl in Ha; try by destruct Ha.
  destruct v as [| | | | |db]; simpl in Hv; try done.
  rewrite merge_value_dict. simpl. rewrite dict_get_merge_dicts.
  destruct (dict_get k da) as [a'|] eqn:Hka; [|by destruct Ha].
  destruct (dict_get k (reverse db)) as [v'|] eqn:Hkb.
  - unfold merged_entry. rewrite Hka. apply IH; [done|].
    apply dict_get_Some_elem in Hkb. rewrite elem_of_reverse in Hkb.
    rewrite Forall_forall in Hv. by apply (Hv (k, v')).
  - done.
Qed.

Lemma lookup_path_merge_all p docs : ∀ a,
  is_Some (lookup_path p (VDict a)) →
  Forall (λ d, keeps p (VDict d)) docs →
  is_Some (lookup_path p (VDict (fold_left merge_dicts docs a))).
Proof.
  induction docs as [|d docs IH]; intros a Ha Hdocs; simpl; [done|].
  apply Forall_cons in Hdocs as [Hd Hdocs].
  apply IH; [|done]. rewrite <- merge_value_dict. by apply lookup_path_merge_value.
Qed.

End MergeFacts.

(** ** The prioritized merge of the configuration sources *)

Module CombineFacts.

Import Config MergeFacts.

Section Facts.
Variable fs : gmap string OsPath.node.
Variable interpolate : gmap string string → string → option string → res string.
Variable safe_load : string → res (list (string * value)).
Variable safe_load_file : string → res (list (string * string)).
Variable abs_path : option string → option string.

(** The file at [path] can be read, interpolated and parsed, and denotes the
    mapping [doc]. *)
Definition loads (self : Config) (env : gmap string string) (keep_string : option string)
    (path : string) (doc : list (string * value)) : Prop :=
  ∃ s env' interpolated,
    OsPath.read fs path = Ok s
    ∧ set_env_from_file fs safe_load_file env (env_file abs_path self) = Ok env'
    ∧ interpolate env' s keep_string = Ok interpolated
    ∧ safe_load interpolated = Ok doc.

(** The files [_combine] merges onto the defaults, in order: the base
    configs that exist, then the scenario file if one is set. *)
Definition sources (self : Config) : list string :=
  List.filter (OsPath.exists_ fs) (default [] (args_base_config self))
  ++ (if String.eqb (molecule_file self) "" then [] else [molecule_file self]).

Lemma merge_file_loads self env keep_string defaults path doc w :
  loads self env keep_string path doc →
  merge_file fs interpolate safe_load safe_load_file abs_path
    self env keep_string defaults path w
  = (w, Ok (merge_dicts defaults doc)).
Proof.
  intros (s & env' & ic & Hread & Henv & Hint & Hload).
  unfold merge_file, _interpolate, mbind, M_bind, Py.bind, of_res, try_except.
  by rewrite Hread, Henv, Hint, Hload.
Qed.

Lemma merge_files_app self env keep_string paths1 paths2 : ∀ defaults w,
  merge_files fs interpolate safe_load safe_load_file abs_path
    self env keep_string defaults (paths1 ++ paths2) w
  = match merge_files fs interpolate safe_load safe_load_file abs_path
            self env keep_string defaults paths1 w with
    | (w', Ok defaults') =>
        merge_files fs interpolate safe_load safe_load_file abs_path
          self env keep_string defaults' paths2 w'
    | (w', Raised e) => (w', Raised e)
    end.
Proof.
  induction paths1 as [|path paths1 IH]; intros defaults w; simpl; [done|].
  unfold mbind, M_bind, Py.bind.
  destruct (merge_file _ _ _ _ _ _ _ _ _ _ _) as [w' [defaults'|e]]; [apply IH | done].
Qed.

Lemma merge_files_loads self env keep_string paths docs :
  Forall2 (loads self env keep_string) paths docs →
  ∀ defaults w,
    merge_files fs interpolate safe_load safe_load_file abs_path
      self env keep_string defaults paths w
    = (w, Ok (fold_left merge_dicts docs defaults)).
Proof.
  induction 1 as [|path doc paths docs Hdoc _ IH]; intros defaults w; simpl; [done|].
  unfold mbind, M_bind, Py.bind. rewrite (merge_file_loads _ _ _ _ _ _ _ Hdoc).
  apply IH.
Qed.

(** [_combine] merges its sources one after the other onto the defaults. *)
Lemma combine_sources self env keep_string w :
  _combine fs interpolate safe_load safe_load_file abs_path self env keep_string w
  = merge_files fs interpolate safe_load safe_load_file abs_path
      self env keep_string (_get_defaults self) (sources self) w.
Proof.
  unfold _combine, sources, mbind, M_bind, Py.bind. rewrite merge_files_app.
  destruct (merge_files _ _ _ _ _ _ _ _ _ _ _) as [w' [defaults'|e]]; [|done].
  destruct (String.eqb (molecule_file self) ""); simpl; [done|].
  unfold mbind, M_bind, Py.bind.
  by destruct (merge_file _ _ _ _ _ _ _ _ _ _ _) as [w'' [d|e]].
Qed.

Lemma combine_loads self env keep_string docs w :
  Forall2 (loads self env keep_string) (sources self) docs →
  _combine fs interpolate safe_load safe_load_file abs_path self env keep_string w
  = (w, Ok (fold_left merge_dicts docs (_get_defaults self))).
Proof. intros H. rewrite combine_sources. by apply merge_files_loads. Qed.

Lemma filter_none (f : string → bool) (l : list string) :
  Forall (λ x, f x = false) l → List.filter f l = [].
Proof. induction 1 as [|x l Hx _ IH]; simpl; [done|]. by rewrite Hx. Qed.

(** C3.  With no scenario file set and no base config that exists,
    [_combine] returns the hardcoded defaults for the scenario name
    ["default"], unchanged and without touching the world; the defaults hold
    the literal values listed. *)
Theorem combine_defaults_only (self : Config) (env : gmap string string)
    (keep_string : option string) (w : World) :
  molecule_file self = "" →
  Forall (λ path, OsPath.exists_ fs path = false) (default [] (args_base_config self)) →
  let merged := VDict (defaults_for "default") in
  _combine fs interpolate safe_load safe_load_file abs_path self env keep_string w
    = (w, Ok (defaults_for "default"))
  ∧ lookup_path ["dependency"; "name"] merged = Some (VStr "galaxy")
  ∧ lookup_path ["driver"; "name"] merged = Some (VStr "default")
  ∧ lookup_path ["driver"; "options"; "managed"] merged = Some (VBool true)
  ∧ lookup_path ["platforms"] merged = Some (VList [])
  ∧ lookup_path ["prerun"] merged = Some (VBool true)
  ∧ lookup_path ["role_name_check"] merged = Some (VInt 0)
  ∧ lookup_path ["provisioner"; "name"] merged = Some (VStr "ansible")
  ∧ lookup_path ["verifier"; "name"] merged = Some (VStr "ansible")
  ∧ lookup_path ["verifier"; "enabled"] merged = Some (VBool true)
  ∧ lookup_path ["scenario"; "name"] merged = Some (VStr "default")
  ∧ lookup_path ["scenario"; "test_sequence"] merged
    = Some (VList [ VStr "dependency"; VStr "cleanup"; VStr "destroy"; VStr "syntax";
                    VStr "create"; VStr "prepare"; VStr "converge"; VStr "idempotence";
                    VStr "side_effect"; VStr "verify"; VStr "cleanup"; VStr "destroy" ]).
Proof.
  intros Hfile Hbase merged. split; [|repeat split].
  rewrite combine_sources. unfold sources, _get_defaults.
  rewrite (filter_none _ _ Hbase), Hfile. reflexivity.
Qed.

(** C2.  The scenario file is merged last.  A key it alone has appears in
    the result with the scenario file's value; a key whose value in the
    scenario file is a scalar or a sequence holds exactly that value,
    whatever the earlier sources had; a key that holds a mapping in the
    scenario file and in the merge of the earlier sources holds the merge
    of the two mappings; keys the scenario file lacks keep what the earlier
    sources gave. *)
Theorem scenario_file_overrides (self : Config) (env : gmap string string)
    (keep_string : option string) (w : World)
    (docs : list (list (string * value))) (scenario_doc : list (string * value)) :
  molecule_file self ≠ "" →
  Forall2 (loads self env keep_string)
    (List.filter (OsPath.exists_ fs) (default [] (args_base_config self))) docs →
  loads self env keep_string (molecule_file self) scenario_doc →
  NoDup (map fst scenario_doc) →
  let defaults := _get_defaults self in
  let before := fold_left merge_dicts docs defaults in
  ∃ merged,
    _combine fs interpolate safe_load safe_load_file abs_path self env keep_string w
      = (w, Ok merged)
    ∧ (∀ k v, dict_get k scenario_doc = Some v →
              dict_get k defaults = None → Forall (λ d, dict_get k d = None) docs →
              dict_get k merged = Some v)
    ∧ (∀ k v, dict_get k scenario_doc = Some v → (∀ d, v ≠ VDict d) →
              dict_get k merged = Some v)
    ∧ (∀ k a b, dict_get k scenario_doc = Some (VDict b) →
                dict_get k before = Some (VDict a) →
                dict_get k merged = Some (VDict (merge_dicts a b)))
    ∧ (∀ k a b, dict_get k scenario_doc = Some (VDict b) →
                dict_get k before = Some a → (∀ d, a ≠ VDict d) →
                dict_get k merged = Some (VDict b))
    ∧ (∀ k, dict_get k scenario_doc = None → dict_get k merged = dict_get k before).
Proof.
  intros Hset Hbases Hscen Hnd defaults before.
  exists (merge_dicts before scenario_doc). split; [|split; [|split; [|split; [|split]]]].
  - replace (merge_dicts before scenario_doc)
      with (fold_left merge_dicts (docs ++ [scenario_doc]) defaults)
      by (by rewrite fold_left_app).
    apply combine_loads. unfold sources.
    destruct (String.eqb_spec (molecule_file self) ""); [done|].
    apply Forall2_app; [done|]. by constructor.
  - intros k v Hk Hdef Hdocs. rewrite dict_get_merge_dicts_nodup, Hk by done.
    unfold merged_entry, before.
    by rewrite (dict_get_merge_all_absent docs defaults k Hdef Hdocs).
  - intros k v Hk Hv. rewrite dict_get_merge_dicts_nodup, Hk by done.
    unfold merged_entry. destruct (dict_get k before); [|done].
    by rewrite merge_value_not_dict.
  - intros k a b Hk Ha. rewrite dict_get_merge_dicts_nodup, Hk by done.
    unfold merged_entry. by rewrite Ha.
  - intros k a b Hk Ha Hna. rewrite dict_get_merge_dicts_nodup, Hk by done.
    unfold merged_entry. rewrite Ha. destruct a; try done. by destruct (Hna d).
  - intros k Hk. by rewrite dict_get_merge_dicts_nodup, Hk.
Qed.

(** C6 (amended).  Every top-level key of the defaults is a key of the
    merged configuration, whatever the sources hold; and a nested key of
    the defaults is still there when every source keeps its path, that is,
    has a mapping wherever it has something under a proper prefix of the
    path. *)
Theorem default_keys_survive (self : Config) (env : gmap string string)
    (keep_string : option string) (w : World)
    (docs : list (list (string * value))) (p : list string) :
  Forall2 (loads self env keep_string) (sources self) docs →
  is_Some (lookup_path p (VDict (_get_defaults self))) →
  Forall (λ d, keeps p (VDict d)) docs →
  ∃ merged,
    _combine fs interpolate safe_load safe_load_file abs_path self env keep_string w
      = (w, Ok merged)
    ∧ is_Some (lookup_path p (VDict merged))
    ∧ ∀ k, is_Some (dict_get k (_get_defaults self)) → is_Some (dict_get k merged).
Proof.
  intros Hloads Hp Hkeeps. eexists. split; [by apply combine_loads|]. split.
  - by apply lookup_path_merge_all.
  - intros k. apply dict_get_merge_all_is_Some.
Qed.

End Facts.

(** A scenario with one file on disk, an interpolator for texts without
    variables and a parser that knows the two texts used below. *)
Definition scenario_path : string := "/r/molecule/default/molecule.yml".

Definition override_text : string :=
  "{driver: {name: docker}, platforms: [{name: instance}], custom: 1}".

Definition override_doc : list (string * value) :=
  [ ("driver", VDict [ ("name", VStr "docker") ]);
    ("platforms", VList [ VDict [ ("name", VStr "instance") ] ]);
    ("custom", VInt 1) ].

Definition null_driver_text : string := "{driver: null}".

Definition null_driver_doc : list (string * value) := [ ("driver", VNone) ].

Definition parse (s : string) : res (list (string * value)) :=
  if String.eqb s override_text then Ok override_doc
  else if String.eqb s null_driver_text then Ok null_driver_doc
  else Ok [].

Definition verbatim (env : gmap string string) (s : string) (keep : option string)
    : res string := Ok s.

Definition disk (text : string) : gmap string OsPath.node :=
  {[ scenario_path := OsPath.File text 0 ]}.

Definition scenario_config : Config := mkConfig scenario_path None None None [].

Lemma loads_scenario (text : string) (doc : list (string * value)) :
  parse text = Ok doc →
  loads (disk text) verbatim parse (λ _, Ok []) id scenario_config ∅ None scenario_path doc.
Proof.
  intros Hparse. exists text, ∅, text. split; [|split; [|split]].
  - unfold OsPath.read, disk. by rewrite lookup_singleton_eq.
  - reflexivity.
  - reflexivity.
  - exact Hparse.
Qed.

Lemma sources_scenario (text : string) : sources (disk text) scenario_config = [scenario_path].
Proof. reflexivity. Qed.

(** C3, witness: no scenario file, and a base config that does not exist. *)
Lemma combine_defaults_only_witness :
  _combine ∅ verbatim parse (λ _, Ok []) id
    (mkConfig "" (Some ["/r/.config/molecule/config.yml"]) None None [])
    ∅ (Some MOLECULE_KEEP_STRING) empty_world
  = (empty_world, Ok (defaults_for "default")).
Proof.
  apply (combine_defaults_only ∅ verbatim parse (λ _, Ok []) id
           (mkConfig "" (Some ["/r/.config/molecule/config.yml"]) None None [])
           ∅ (Some MOLECULE_KEEP_STRING) empty_world).
  - reflexivity.
  - repeat constructor.
Defined.

(** C2, witness: a scenario file that renames the driver, lists a platform
    and adds a key of its own. *)
Lemma scenario_file_overrides_witness :
  ∃ merged,
    _combine (disk override_text) verbatim parse (λ _, Ok []) id
      scenario_config ∅ None empty_world
    = (empty_world, Ok merged)
    ∧ dict_get "custom" merged = Some (VInt 1)
    ∧ dict_get "platforms" merged = Some (VList [ VDict [ ("name", VStr "instance") ] ])
    ∧ lookup_path ["driver"; "name"] (VDict merged) = Some (VStr "docker")
    ∧ lookup_path ["driver"; "options"; "managed"] (VDict merged) = Some (VBool true)
    ∧ dict_get "prerun" merged = Some (VBool true).
Proof.
  destruct (scenario_file_overrides (disk override_text) verbatim parse (λ _, Ok []) id
              scenario_config ∅ None empty_world [] override_doc)
    as (merged & E & Honly & Hrepl & Hrec & _ & Hkeep).
  - discriminate.
  - constructor.
  - by apply loads_scenario.
  - repeat constructor; simpl; rewrite ?elem_of_cons, ?elem_of_nil; intuition discriminate.
  - exists merged. split; [exact E|]. split; [|split; [|split; [|split]]].
    + apply Honly; [reflexivity | reflexivity | constructor].
    + apply Hrepl; [reflexivity | discriminate].
    + simpl. erewrite Hrec; [|reflexivity|reflexivity]. reflexivity.
    + simpl. erewrite Hrec; [|reflexivity|reflexivity]. reflexivity.
    + rewrite Hkeep; reflexivity.
Defined.

(** C6, witness: the same scenario file keeps the defaults' nested key
    [driver.options.managed]. *)
Lemma default_keys_survive_witness :
  ∃ merged,
    _combine (disk override_text) verbatim parse (λ _, Ok []) id
      scenario_config ∅ None empty_world
    = (empty_world, Ok merged)
    ∧ is_Some (lookup_path ["driver"; "options"; "managed"] (VDict merged)).
Proof.
  destruct (default_keys_survive (disk override_text) verbatim parse (λ _, Ok []) id
              scenario_config ∅ None empty_world [override_doc]
              ["driver"; "options"; "managed"])
    as (merged & E & Hp & _).
  - rewrite sources_scenario. constructor; [by apply loads_scenario | constructor].
  - by eexists.
  - repeat constructor; simpl; intros; try discriminate.
  - exists merged. split; [exact E | exact Hp].
Defined.

(** C6, counterexample to the claim as stated: a scenario file that sets
    [driver] to null.  The defaults have the nested key [driver.name]; the
    merged configuration holds [None] under [driver] and has no
    [driver.name]. *)
Lemma nested_default_key_lost_counterexample :
  let self := scenario_config in
  ∃ merged,
    _combine (disk null_driver_text) verbatim parse (λ _, Ok []) id self ∅ None empty_world
    = (empty_world, Ok merged)
    ∧ lookup_path ["driver"; "name"] (VDict (_get_defaults self)) = Some (VStr "default")
    ∧ dict_get "driver" merged = Some VNone
    ∧ lookup_path ["driver"; "name"] (VDict merged) = None.
Proof.
  intros self. eexists. split; [|split; [reflexivity|]].
  - apply (combine_loads (disk null_driver_text) verbatim parse (λ _, Ok []) id
             self ∅ None [null_driver_doc]).
    rewrite sources_scenario. constructor; [by apply loads_scenario | constructor].
  - split; reflexivity.
Qed.

End CombineFacts.

(** ** Small checks of the path functions and of the merge *)

Module Examples.

Example scenario_name_of_path :
  OsPath.basename (OsPath.dirname "/r/molecule/sc1/molecule.yml") = "sc1"
  ∧ OsPath.dirname "molecule.yml" = ""
  ∧ OsPath.dirname "/x" = "/"
  ∧ OsPath.dirname "a//b" = "a"
  ∧ OsPath.basename "a/b/" = "".
Proof. repeat split; reflexivity. Qed.

Example scenario_name_defaults :
  Config._get_defaults (Config.mkConfig "molecule.yml" None None None [])
  = Config.defaults_for "default"
  ∧ Config._get_defaults (Config.mkConfig "/r/molecule/sc1/molecule.yml" None None None [])
    = Config.defaults_for "sc1".
Proof. split; reflexivity. Qed.

Example merge_nested :
  merge_dicts
    [ ("a", VDict [ ("x", VInt 1); ("l", VList [ VInt 1 ]) ]); ("b", VInt 2) ]
    [ ("a", VDict [ ("l", VList [ VInt 9 ]); ("y", VInt 3) ]); ("c", VNone) ]
  = [ ("a", VDict [ ("x", VInt 1); ("l", VList [ VInt 9 ]); ("y", VInt 3) ]);
      ("b", VInt 2); ("c", VNone) ].
Proof. reflexivity. Qed.

Example negative_index :
  list_getitem [10; 20; 30]%Z (-1) = Ok 30%Z
  ∧ list_getitem [10; 20; 30]%Z (-4) = Raised IndexError
  ∧ list_getitem [10; 20; 30]%Z 3 = Raised IndexError.
Proof. repeat split; reflexivity. Qed.

End Examples.

(** * Further properties of the code *)

(** ** Lookups in the plugin collection *)

Module UserListMapLookups.

Import Api UserListMapFacts.

Section Facts.
Context {A : Type}.
Variable str : A → string.

Lemma last_filter_snoc (n : string) (l1 l2 : list A) (y : A) :
  str y = n → Forall (λ x, str x ≠ n) l2 →
  last (filter (λ x, str x = n) (l1 ++ y :: l2)) = Some y.
Proof.
  intros Hy Hl2. rewrite filter_app, filter_cons_True by done.
  rewrite (filter_no_match str n l2).
  - by rewrite last_snoc.
  - intros x Hx. rewrite Forall_forall in Hl2. by apply Hl2.
Qed.

(** X1.  In a collection built by appending the items [l], none named
    ["data"] or ["append"], a name other than ["data"] leads by indexing to
    the last appended item that bears it; an earlier item of the same name
    is shadowed; a name no item bears makes indexing raise [KeyError].
    [get] finds the same item, and returns the default for a name no item
    bears, as long as no item is named ["get"]; once one is, every [get]
    raises [TypeError], whatever the key. *)
Theorem lookup_by_name (l : list A) (n : string) (d : obj A) :
  Forall (λ x, plain (str x)) l →
  n ≠ "data" →
  let self := (append_all str l new).1 in
  (∀ l1 y l2, l = l1 ++ y :: l2 → str y = n → Forall (λ x, str x ≠ n) l2 →
     getitem self (IStr n) = Ok (OItem y)
     ∧ (Forall (λ x, str x ≠ "get") l → get self n d = Ok (OItem y)))
  ∧ ((∀ x, x ∈ l → str x ≠ n) →
     getitem self (IStr n) = Raised (KeyError n)
     ∧ (Forall (λ x, str x ≠ "get") l → get self n d = Ok d))
  ∧ ((∃ x, x ∈ l ∧ str x = "get") →
     ∀ key, get self key d = Raised (TypeError "object is not callable")).
Proof.
  intros Hl Hn self. destruct (built_holds str l Hl) as [_ H].
  fold self in H. pose proof H as [_ Hnames]. split; [|split].
  - intros l1 y l2 El Hy Hl2.
    assert (E : self !! n = Some (OItem y)).
    { rewrite (Hnames n Hn), El. by rewrite (last_filter_snoc n l1 l2 y Hy Hl2). }
    split.
    + unfold getitem. by rewrite E.
    + intros Hget. unfold get.
      destruct (holds_unused str l self "get" H ltac:(discriminate) Hget) as [_ ->].
      by rewrite E.
  - intros Hnone.
    assert (E : self !! n = None).
    { by rewrite (Hnames n Hn), (filter_no_match str n l Hnone). }
    split.
    + unfold getitem. by rewrite E.
    + intros Hget. unfold get.
      destruct (holds_unused str l self "get" H ltac:(discriminate) Hget) as [_ ->].
      by rewrite E.
  - intros (x & Hx & Hxn) key. unfold get.
    by rewrite (holds_shadowed str l self "get" x H ltac:(discriminate) Hx Hxn).
Qed.

(** X2.  In such a collection the item appended [i]-th is found at index
    [i] and at index [i - len]; an index below [-len] or from [len] on
    raises [IndexError]. *)
Theorem lookup_by_position (l : list A) :
  Forall (λ x, plain (str x)) l →
  let self := (append_all str l new).1 in
  let len := Z.of_nat (length l) in
  (∀ i x, l !! i = Some x →
     getitem self (IInt (Z.of_nat i)) = Ok (OItem x)
     ∧ getitem self (IInt (Z.of_nat i - len)) = Ok (OItem x))
  ∧ (∀ z, (z < - len ∨ len ≤ z)%Z → getitem self (IInt z) = Raised IndexError).
Proof.
  intros Hl self len. destruct (built_holds str l Hl) as [_ [Hd _]].
  fold self in Hd. split.
  - intros i x Hi. pose proof (lookup_lt_Some _ _ _ Hi) as Hlt.
    unfold getitem. rewrite Hd. unfold list_getitem. fold len. split.
    + destruct (Z.ltb_spec (Z.of_nat i) 0); [lia|].
      destruct (Z.leb_spec 0 (Z.of_nat i)); [|lia].
      destruct (Z.ltb_spec (Z.of_nat i) len); [|lia].
      simpl. by rewrite Nat2Z.id, Hi.
    + destruct (Z.ltb_spec (Z.of_nat i - len) 0); [|lia].
      replace (Z.of_nat i - len + len)%Z with (Z.of_nat i) by lia.
      destruct (Z.leb_spec 0 (Z.of_nat i)); [|lia].
      destruct (Z.ltb_spec (Z.of_nat i) len); [|lia].
      simpl. by rewrite Nat2Z.id, Hi.
  - intros z Hz. unfold getitem. rewrite Hd. unfold list_getitem. fold len.
    destruct (Z.ltb_spec z 0).
    + destruct (Z.leb_spec 0 (z + len)); [|done].
      destruct (Z.ltb_spec (z + len) len); [lia|done].
    + destruct (Z.leb_spec 0 z); [|done].
      destruct (Z.ltb_spec z len); [lia|done].
Qed.

(** X3.  In such a collection [name in plugins] and indexing by that name
    agree: the test is true exactly when indexing returns an item, and that
    item bears the name; so an index by name guarded by [in] never raises. *)
Theorem contains_iff_lookup (l : list A) (n : string) :
  Forall (λ x, plain (str x)) l →
  n ≠ "data" →
  let self := (append_all str l new).1 in
  (contains str n self = Ok true
   ↔ ∃ y, getitem self (IStr n) = Ok (OItem y) ∧ str y = n ∧ y ∈ l)
  ∧ (contains str n self = Ok false ↔ getitem self (IStr n) = Raised (KeyError n)).
Proof.
  intros Hl Hn self. destruct (built_holds str l Hl) as [_ [Hd Hnames]].
  fold self in Hd, Hnames.
  unfold contains, data, getitem. rewrite Hd, (Hnames n Hn).
  destruct (last (filter (λ x, str x = n) l)) as [y|] eqn:Hlast; simpl.
  - assert (Hy : y ∈ filter (λ x, str x = n) l).
    { apply last_Some in Hlast as [l' ->]. apply elem_of_app. right. by left. }
    apply list_elem_of_filter in Hy as [Hyn Hyl].
    assert (existsb (λ x, String.eqb (str x) n) l = true) as ->.
    { apply existsb_exists. exists y. split; [by apply list_elem_of_In|].
      by apply String.eqb_eq. }
    split; split; try done.
    intros _. by exists y.
  - assert (existsb (λ x, String.eqb (str x) n) l = false) as ->.
    { destruct (existsb _ l) eqn:E; [|done].
      apply existsb_exists in E as (x & Hx & Hxn).
      apply list_elem_of_In in Hx. apply String.eqb_eq in Hxn.
      assert (Hin : x ∈ filter (λ x, str x = n) l) by (by apply list_elem_of_filter).
      apply last_None in Hlast. rewrite Hlast in Hin. by apply elem_of_nil in Hin. }
    split; split; try done.
    intros (y & Hy & _). discriminate.
Qed.

(** X23.  An item named ["append"] is the last one the collection takes:
    it is appended like any other, and from then on every [append] raises
    [TypeError] and leaves the collection as it was, so that the item it
    was given is found neither by name nor by [in]. *)
Theorem append_item_ends_appending (l : list A) (a x : A) :
  Forall (λ y, plain (str y)) l →
  str a = "append" →
  let self := (append_all str (l ++ [a]) new).1 in
  (append_all str (l ++ [a]) new).2 = Ok tt
  ∧ data self = Ok (l ++ [a])
  ∧ append str x self = (self, Raised (TypeError "object is not callable"))
  ∧ (str x ≠ "data" → (∀ y, y ∈ l ++ [a] → str y ≠ str x) →
     getitem self (IStr (str x)) = Raised (KeyError (str x))
     ∧ contains str (str x) self = Ok false).
Proof.
  intros Hl Ha self.
  destruct (built_holds str l Hl) as [E0 H0].
  assert (E : append_all str (l ++ [a]) new = append str a (append_all str l new).1).
  { rewrite (append_all_app str l [a] new E0). simpl.
    by destruct (append str a (append_all str l new).1) as [s [[]|e]]. }
  destruct (append_holds str l _ a H0 (plain_not_append str l Hl)) as (self1 & E1 & H1).
  { rewrite Ha. discriminate. }
  subst self. rewrite E, E1. cbn [fst snd].
  pose proof H1 as [Hd Hnames].
  split; [done|]. split; [|split].
  - unfold data. by rewrite Hd.
  - unfold append.
    rewrite (holds_shadowed str (l ++ [a]) self1 "append" a H1 ltac:(discriminate)); [done| |done].
    apply elem_of_app. right. by left.
  - intros Hxd Hfresh.
    split.
    + unfold getitem.
      by rewrite (Hnames _ Hxd), (filter_no_match str (str x) (l ++ [a]) Hfresh).
    + unfold contains, data. rewrite Hd. f_equal.
      destruct (existsb _ (l ++ [a])) eqn:Ex; [|done].
      apply existsb_exists in Ex as (y & Hy & Hyn).
      apply list_elem_of_In in Hy. apply String.eqb_eq in Hyn. by destruct (Hfresh y Hy).
Qed.

End Facts.

(** X1, witness: two plugins named ["docker"]; the later one is found. *)
Lemma lookup_by_name_witness :
  let str := λ p : string * nat, p.1 in
  let self := (append_all str [("docker", 1); ("podman", 2); ("docker", 3)] new).1 in
  getitem self (IStr "docker") = Ok (OItem ("docker", 3))
  ∧ get self "docker" ONone = Ok (OItem ("docker", 3))
  ∧ getitem self (IStr "vagrant") = Raised (KeyError "vagrant").
Proof.
  intros str self.
  destruct (lookup_by_name str [("docker", 1); ("podman", 2); ("docker", 3)] "docker" ONone
              ltac:(repeat constructor; discriminate) ltac:(discriminate)) as (Hfound & _ & _).
  destruct (Hfound [("docker", 1); ("podman", 2)] ("docker", 3) [] eq_refl eq_refl
              ltac:(constructor)) as [Hidx Hget].
  split; [exact Hidx|]. split; [apply Hget; repeat constructor; discriminate|].
  apply (lookup_by_name str [("docker", 1); ("podman", 2); ("docker", 3)] "vagrant" ONone
           ltac:(repeat constructor; discriminate) ltac:(discriminate)).
  intros x. rewrite !elem_of_cons, elem_of_nil.
  intros [->|[->|[->|[]]]]; discriminate.
Defined.

(** X2, witness. *)
Lemma lookup_by_position_witness :
  let self := (append_all id ["default"; "docker"; "podman"] new).1 in
  getitem self (IInt 1) = Ok (OItem "docker")
  ∧ getitem self (IInt (-2)) = Ok (OItem "docker")
  ∧ getitem self (IInt 3) = Raised IndexError.
Proof.
  intros self.
  destruct (lookup_by_position id ["default"; "docker"; "podman"]
              ltac:(repeat constructor; discriminate)) as [Hin Hout].
  destruct (Hin 1 "docker" eq_refl) as [H1 H2].
  split; [exact H1|]. split; [exact H2|]. apply Hout. right. simpl. lia.
Defined.

(** X3, witness. *)
Lemma contains_iff_lookup_witness :
  let self := (append_all id ["default"; "docker"] new).1 in
  (∃ y, getitem self (IStr "docker") = Ok (OItem y) ∧ id y = "docker"
        ∧ y ∈ ["default"; "docker"])
  ∧ getitem self (IStr "podman") = Raised (KeyError "podman").
Proof.
  intros self. split.
  - apply (contains_iff_lookup id ["default"; "docker"] "docker"
             ltac:(repeat constructor; discriminate) ltac:(discriminate)).
    vm_compute. reflexivity.
  - apply (contains_iff_lookup id ["default"; "docker"] "podman"
             ltac:(repeat constructor; discriminate) ltac:(discriminate)).
    vm_compute. reflexivity.
Defined.

(** X23, witness: a plugin named ["append"], then docker. *)
Lemma append_item_ends_appending_witness :
  let self := (append_all id ["default"; "append"] new).1 in
  data self = Ok ["default"; "append"]
  ∧ append id "docker" self = (self, Raised (TypeError "object is not callable"))
  ∧ contains id "docker" self = Ok false.
Proof.
  intros self.
  destruct (append_item_ends_appending id ["default"] "append" "docker"
              ltac:(repeat constructor; discriminate) eq_refl) as (_ & Hd & Happ & Hno).
  split; [exact Hd|]. split; [exact Happ|].
  apply Hno; [discriminate|].
  intros y. simpl. rewrite !elem_of_cons, elem_of_nil.
  intros [->|[->|[]]]; discriminate.
Defined.

End UserListMapLookups.

(** ** What the registries return and when they raise *)

Module RegistryOutcomes.

Import Api UserListMapFacts RegistryFacts.

Section Facts.
Context {C A : Type}.
Variable str : A → string.
Variable lt : A → A → bool.
Variable format_exc : exc → string.

Lemma loaded_failures_length (config : C) (ps : list (Factory C A)) :
  length (loaded config ps) + length (failures config ps) = length ps.
Proof.
  unfold loaded, failures. induction ps as [|p ps IH]; simpl; [done|].
  unfold omap in IH.
  destruct (construct p config); simpl; [by rewrite IH|].
  rewrite Nat.add_succ_r. by rewrite IH.
Qed.

Lemma driver_entry_point_caught (pm : PluginManager C A) (w : World) :
  match load_setuptools_entrypoints pm with
  | Ok a => (w, Ok a)
  | Raised e =>
      if Exception_or_SystemExit e
      then log ERROR ("Failed to load driver entry point " +:+ format_exc e) w
      else (w, Raised e)
  end = (add_log (entry_point_failure format_exc "driver"
                    (load_setuptools_entrypoints pm)) w, Ok tt).
Proof.
  destruct (load_setuptools_entrypoints pm) as [[]|e]; simpl.
  - by rewrite add_log_nil.
  - by rewrite Exception_or_SystemExit_any.
Qed.

(** X4.  Unless a plugin it constructs is named ["data"], ["append"] or
    ["sort"], [drivers] returns, whatever the entry point loading and the
    constructors raise.  The returned collection lists exactly the plugins
    whose constructor returned (in some order), each is found under its
    name, and every registered plugin is either listed or accounted for by
    one [ERROR] record; the only other record is the one for a failed entry
    point loading. *)
Theorem drivers_always_return (pm : PluginManager C A) (config : C) (w : World) :
  Forall (λ a, registrable (str a)) (loaded config (get_plugins pm)) →
  ∃ w' plugins l,
    drivers str lt format_exc pm config w = (w', Ok plugins)
    ∧ data plugins = Ok l
    ∧ l ≡ₚ loaded config (get_plugins pm)
    ∧ (∀ a, a ∈ l → ∃ b, getitem plugins (IStr (str a)) = Ok (OItem b)
                        ∧ str b = str a ∧ b ∈ l)
    ∧ w_log w' = w_log w
                 ++ entry_point_failure format_exc "driver" (load_setuptools_entrypoints pm)
                 ++ failures config (get_plugins pm)
    ∧ length l + length (failures config (get_plugins pm)) = length (get_plugins pm)
    ∧ w_state_file w' = w_state_file w ∧ w_heap w' = w_heap w.
Proof.
  intros Hnames.
  pose proof (registrable_loadable str Exception_or_SystemExit config _
                Exception_or_SystemExit_any Hnames) as Hload.
  set (w1 := add_log (entry_point_failure format_exc "driver"
                        (load_setuptools_entrypoints pm)) w).
  destruct (registry_built str lt Exception_or_SystemExit config _ w1 Hload
              (registrable_not_sort str _ Hnames)) as (plugins & E & Hd & Hn).
  exists (add_log (failures config (get_plugins pm)) w1), plugins,
         (sorted lt (loaded config (get_plugins pm))).
  split; [|split; [|split; [|split; [|split; [|split]]]]].
  - unfold mbind, M_bind, Py.bind in E.
    unfold drivers, mbind, M_bind, Py.bind, try_except, of_res.
    rewrite (driver_entry_point_caught pm w). fold w1. by rewrite E.
  - unfold data. by rewrite Hd.
  - apply sorted_perm.
  - intros a Ha. rewrite sorted_perm in Ha.
    assert (Hna : str a ≠ "data").
    { rewrite Forall_forall in Hnames. by destruct (Hnames a Ha) as [[? _] _]. }
    unfold getitem. rewrite (Hn _ Hna).
    destruct (last (filter (λ x, str x = str a) (loaded config (get_plugins pm))))
      as [b|] eqn:Hlast.
    + assert (Hb : b ∈ filter (λ x, str x = str a) (loaded config (get_plugins pm))).
      { apply last_Some in Hlast as [l' ->]. apply elem_of_app. right. by left. }
      apply list_elem_of_filter in Hb as [Hbn Hbl].
      exists b. split; [done|]. split; [done|]. by rewrite sorted_perm.
    + apply last_None in Hlast.
      assert (Hin : a ∈ filter (λ x, str x = str a) (loaded config (get_plugins pm)))
        by (by apply list_elem_of_filter).
      rewrite Hlast in Hin. by apply elem_of_nil in Hin.
  - subst w1. simpl. by rewrite app_assoc.
  - rewrite (Permutation_length (sorted_perm lt _)). apply loaded_failures_length.
  - done.
Qed.

Lemma entry_point_caught (pm : PluginManager C A) (w : World) :
  match load_setuptools_entrypoints pm with
  | Ok _ => True
  | Raised e => is_Exception e = true
  end →
  match load_setuptools_entrypoints pm with
  | Ok a => (w, Ok a)
  | Raised e =>
      if is_Exception e
      then log ERROR ("Failed to load verifier entry point " +:+ format_exc e) w
      else (w, Raised e)
  end = (add_log (entry_point_failure format_exc "verifier"
                    (load_setuptools_entrypoints pm)) w, Ok tt).
Proof.
  destruct (load_setuptools_entrypoints pm) as [[]|e]; simpl.
  - intros _. by rewrite add_log_nil.
  - by intros ->.
Qed.




(** X5.  In [verifiers] the first plugin constructor that raises
    [SystemExit] ends the registry construction with that exception: the
    plugins after it are not constructed, no collection is returned, and the
    log holds only the records of the failures before it.  (The plugins
    before it raise an [Exception] or return a plugin not named ["data"] or
    ["append"].) *)
Theorem verifiers_stop_at_system_exit (pm : PluginManager C A) (config : C) (w : World)
    (ps1 ps2 : list (Factory C A)) (p : Factory C A) (msg : string) :
  match load_setuptools_entrypoints pm with
  | Ok _ => True
  | Raised e => is_Exception e = true
  end →
  get_plugins pm = ps1 ++ p :: ps2 →
  loadable str is_Exception config ps1 →
  construct p config = Raised (SystemExit msg) →
  verifiers str lt format_exc pm config w
  = (add_log (entry_point_failure format_exc "verifier" (load_setuptools_entrypoints pm)
              ++ failures config ps1) w,
     Raised (SystemExit msg)).
Proof.
  intros Hep Hps Hps1 Hp.
  unfold verifiers, mbind, M_bind, Py.bind, try_except, of_res.
  rewrite (entry_point_caught pm w Hep), Hps.
  rewrite (load_plugins_system_exit str config ps1 p ps2 msg Hps1 Hp [] new _
             (holds_new str) ltac:(constructor)).
  by rewrite add_log_add_log.
Qed.




(** X24.  A driver plugin whose name is ["sort"] breaks the registry too:
    every plugin loads, but the plugin has taken the place of the method,
    and [drivers] ends with [TypeError] at [plugins.sort()].  (No plugin is
    named ["data"] or ["append"].) *)
Theorem drivers_raise_on_sort_plugin (pm : PluginManager C A) (config : C) (w : World)
    (a : A) :
  Forall (λ a, plain (str a)) (loaded config (get_plugins pm)) →
  a ∈ loaded config (get_plugins pm) →
  str a = "sort" →
  drivers str lt format_exc pm config w
  = (add_log (entry_point_failure format_exc "driver" (load_setuptools_entrypoints pm)
              ++ failures config (get_plugins pm)) w,
     Raised (TypeError "object is not callable")).
Proof.
  intros Hnames Ha Hsort.
  assert (Hload : loadable str Exception_or_SystemExit config (get_plugins pm)).
  { revert Hnames. unfold loadable, loaded. clear.
    induction (get_plugins pm) as [|p ps IH]; simpl; intros H; [done|].
    constructor.
    - destruct (construct p config) as [b|e]; [|apply Exception_or_SystemExit_any].
      by apply Forall_cons in H as [? _].
    - apply IH. destruct (construct p config) as [b|e]; [|done].
      by apply Forall_cons in H as [_ H]. }
  unfold drivers, mbind, M_bind, Py.bind, try_except, of_res.
  rewrite (driver_entry_point_caught pm w).
  destruct (load_plugins_spec str Exception_or_SystemExit config _ Hload [] new
              (add_log (entry_point_failure format_exc "driver"
                          (load_setuptools_entrypoints pm)) w)
              (holds_new str) ltac:(constructor)) as (plugins1 & -> & H1).
  simpl in H1.
  unfold sort_and_return, sort.
  rewrite (holds_shadowed str _ plugins1 "sort" a H1 ltac:(discriminate) Ha Hsort).
  unfold raise. by rewrite add_log_add_log.
Qed.

End Facts.

(** Plugins with a registered name, a constructor outcome and, when it
    returns, the plugin's own name. *)
Definition named (registered : string) (outcome : res string) : Factory unit string :=
  mkFactory registered (λ _, outcome).

(** X4, witness: one plugin loads, one raises, one exits. *)
Lemma drivers_always_return_witness :
  ∃ w' plugins,
    drivers id String.ltb exc_str
      (mkPluginManager (Raised (Exception "bad entry point"))
         [ named "podman" (Ok "podman");
           named "broken" (Raised (Exception "boom"));
           named "exiting" (Raised (SystemExit "1")) ])
      tt empty_world
    = (w', Ok plugins)
    ∧ data plugins = Ok ["podman"]
    ∧ length (w_log w') = 3.
Proof.
  destruct (drivers_always_return id String.ltb exc_str
              (mkPluginManager (Raised (Exception "bad entry point"))
                 [ named "podman" (Ok "podman");
                   named "broken" (Raised (Exception "boom"));
                   named "exiting" (Raised (SystemExit "1")) ])
              tt empty_world)
    as (w' & plugins & l & E & Hd & Hperm & _ & Hlog & _).
  - repeat constructor; discriminate.
  - exists w', plugins. split; [exact E|]. split.
    + rewrite Hd. f_equal. simpl in Hperm. by apply Permutation_singleton_r in Hperm.
    + rewrite Hlog. reflexivity.
Defined.

(** X5, witness. *)
Lemma verifiers_stop_at_system_exit_witness :
  verifiers id String.ltb exc_str
    (mkPluginManager (Ok tt)
       [ named "broken" (Raised (Exception "boom"));
         named "exiting" (Raised (SystemExit "1"));
         named "ansible" (Ok "ansible") ])
    tt empty_world
  = (add_log [(ERROR, "Failed to load broken driver: boom")] empty_world,
     Raised (SystemExit "1")).
Proof.
  apply (verifiers_stop_at_system_exit id String.ltb exc_str
           (mkPluginManager (Ok tt)
              [ named "broken" (Raised (Exception "boom"));
                named "exiting" (Raised (SystemExit "1"));
                named "ansible" (Ok "ansible") ])
           tt empty_world
           [ named "broken" (Raised (Exception "boom")) ]
           [ named "ansible" (Ok "ansible") ]
           (named "exiting" (Raised (SystemExit "1"))) "1").
  - exact I.
  - reflexivity.
  - repeat constructor.
  - reflexivity.
Defined.


(** X24, witness. *)
Lemma drivers_raise_on_sort_plugin_witness :
  drivers id String.ltb exc_str
    (mkPluginManager (Ok tt) [ named "default" (Ok "default"); named "sort" (Ok "sort") ])
    tt empty_world
  = (empty_world, Raised (TypeError "object is not callable")).
Proof.
  pose proof (drivers_raise_on_sort_plugin id String.ltb exc_str
                (mkPluginManager (Ok tt)
                   [ named "default" (Ok "default"); named "sort" (Ok "sort") ])
                tt empty_world "sort") as H.
  simpl in H. rewrite H.
  - reflexivity.
  - repeat constructor; discriminate.
  - rewrite !elem_of_cons. right. by left.
  - reflexivity.
Defined.

End RegistryOutcomes.

(** ** The [state] property across accesses and across runs *)

Module StateRuns.

Import Config RegistryFacts StateFacts.

(** X8.  When no scenario file is set, or the path is not a regular file
    (nothing there, or a directory), the first access to [state] records
    nothing and warns about nothing: the state file and the log are left as
    they were, and the second of two fresh [State] objects is returned. *)
Theorem state_without_file (fs : gmap string OsPath.node) (self : Config) (w : World) :
  w_state_slot w = None →
  molecule_file self = ""
  ∨ fs !! molecule_file self = None
  ∨ (∃ t, fs !! molecule_file self = Some (OsPath.Dir t)) →
  ∃ w',
    state fs self w = (w', Ok (S (length (w_heap w))))
    ∧ w_state_file w' = w_state_file w
    ∧ w_log w' = w_log w
    ∧ w_heap w' = w_heap w ++ [recorded w; recorded w].
Proof.
  intros Hslot Hfile.
  assert (Hcond : negb (String.eqb (molecule_file self) "")
                  && OsPath.isfile fs (molecule_file self) = false).
  { unfold OsPath.isfile. destruct Hfile as [-> | [-> | [t ->]]].
    - done.
    - apply andb_false_r.
    - apply andb_false_r. }
  unfold state. rewrite Hslot, (state_body_no_file fs self w Hcond).
  by eexists.
Qed.

(** X9.  Two runs of the same scenario.  The first finds no timestamp and
    records the file's modification time [t].  A later run, started from
    the state file the first one left, finds the file modified at [t']: it
    logs the warning exactly when [t'] differs from [t], returns in either
    case, and leaves [t] recorded, so that the warning comes again on every
    run until the state is reset. *)
Theorem second_run_compares_with_first (fs fs' : gmap string OsPath.node)
    (self : Config) (w w2 : World) (content content' : string) (t t' : Z) :
  w_state_slot w = None →
  w_state_slot w2 = None →
  molecule_file self ≠ "" →
  fs !! molecule_file self = Some (OsPath.File content t) →
  fs' !! molecule_file self = Some (OsPath.File content' t') →
  sd_molecule_yml_date_modified (recorded w) = None →
  w_state_file w2 = w_state_file (state fs self w).1 →
  let second := state fs' self w2 in
  sd_molecule_yml_date_modified (recorded w2) = Some t
  ∧ w_state_file second.1 = w_state_file w2
  ∧ w_log second.1
    = w_log w2 ++ (if decide (t' = t) then [] else [(WARNING, modified_message self)])
  ∧ second.2 = Ok (S (length (w_heap w2))).
Proof.
  intros Hslot Hslot2 Hset Hfile Hfile' Hnone Hw2 second.
  assert (Hrec : sd_molecule_yml_date_modified (recorded w2) = Some t).
  { unfold recorded at 1. rewrite Hw2. unfold state. rewrite Hslot.
    rewrite (state_body_file fs self w content t Hset Hfile), Hnone. reflexivity. }
  split; [exact Hrec|].
  subst second. unfold state. rewrite Hslot2.
  rewrite (state_body_file fs' self w2 content' t' Hset Hfile'), Hrec. simpl.
  split; [done|]. split; [|done].
  destruct (decide (t' = t)) as [->|Hne].
  - by rewrite Z.eqb_refl.
  - destruct (Z.eqb_spec t t'); [congruence | done].
Qed.

(** X8, witness: a configuration without scenario file. *)
Lemma state_without_file_witness :
  ∃ w',
    state ∅ (mkConfig "" None None None []) empty_world = (w', Ok 1)
    ∧ w_state_file w' = None ∧ w_log w' = [].
Proof.
  destruct (state_without_file ∅ (mkConfig "" None None None []) empty_world)
    as (w' & E & Hfile & Hlog & _).
  - reflexivity.
  - by left.
  - by exists w'.
Defined.

(** X9, witness: the file is edited between the two runs. *)
Lemma second_run_compares_with_first_witness :
  let self := mkConfig "/r/molecule/default/molecule.yml" None None None [] in
  let fs : gmap string OsPath.node :=
    {[ "/r/molecule/default/molecule.yml" := OsPath.File "---" 1700000000 ]} in
  let fs' : gmap string OsPath.node :=
    {[ "/r/molecule/default/molecule.yml" := OsPath.File "--- # edited" 1700000500 ]} in
  let w2 := mkWorld [] (w_state_file (state fs self empty_world).1) [] None in
  w_log (state fs' self w2).1 = [(WARNING, modified_message self)]
  ∧ sd_molecule_yml_date_modified (recorded (state fs' self w2).1) = Some 1700000000%Z.
Proof.
  intros self fs fs' w2.
  destruct (second_run_compares_with_first fs fs' self empty_world w2
              "---" "--- # edited" 1700000000 1700000500)
    as (Hrec & Hfile & Hlog & _).
  - reflexivity.
  - reflexivity.
  - discriminate.
  - apply lookup_singleton_eq.
  - apply lookup_singleton_eq.
  - reflexivity.
  - reflexivity.
  - split; [exact Hlog|]. unfold recorded at 1. rewrite Hfile. exact Hrec.
Defined.

End StateRuns.

(** ** [molecule.config]: the [driver] and [verifier] properties *)

Module ConfigProperties.

Import Config.

Section Properties.
Context {A : Type}.
Variable str : A → string.
Variable fs : gmap string OsPath.node.
Variable state_file : Config → string.
(** The collection [api.drivers()] returns, and the one
    [api.drivers(config=self)] returns: the cache of [drivers] is keyed by
    its argument. *)
Variable api_drivers : gmap string (Api.obj A).
Variable api_drivers_self : gmap string (Api.obj A).
(** The collection [api.verifiers(self)] returns. *)
Variable api_verifiers_self : gmap string (Api.obj A).
Variable repr_container : value → string.
(** The plugin after [driver.name = driver_name]. *)
Variable set_name : value → A → A.






End Properties.

End ConfigProperties.

(** ** Further outcomes of the driver and verifier resolution *)

Module DriverOutcomes.

Import Config ConfigProperties RegistryFacts StateFacts ValueFacts DriverFacts.
Import UserListMapFacts.

Section Facts.
Context {A : Type}.
Variable str : A → string.
Variable fs : gmap string OsPath.node.
Variable state_file : Config → string.
Variable repr_container : value → string.



(** X12.  A merged configuration whose [driver] entry is missing, is not a
    mapping, or has no [name] makes [_get_driver_name] raise [KeyError] or
    [TypeError] once the state was read; it does not exit with a
    message. *)
Theorem driver_entry_errors (api_drivers : gmap string (Api.obj A))
    (self : Config) (w w1 : World) (rec : option string) :
  read_state_driver fs self w = (w1, Ok rec) →
  let out := _get_driver_name str fs state_file api_drivers repr_container self w in
  (dict_get "driver" (config self) = None → out = (w1, Raised (KeyError "driver")))
  ∧ (∀ v, dict_get "driver" (config self) = Some v → (∀ d, v ≠ VDict d) →
       ∃ msg, out = (w1, Raised (TypeError msg)))
  ∧ (∀ d, dict_get "driver" (config self) = Some (VDict d) → dict_get "name" d = None →
       out = (w1, Raised (KeyError "name"))).
Proof.
  intros Hread out.
  unfold read_state_driver, mbind, M_bind, Py.bind in Hread.
  destruct (state_returns fs self w) as (w' & o & Hstate & Hslot).
  rewrite Hstate in Hread.
  destruct (State.driver o w') as [w'' [rec'|e]] eqn:Hdrv; [|by inversion Hread].
  assert (w'' = w') as ->.
  { unfold State.driver, State.data, mbind, M_bind, Py.bind in Hdrv.
    destruct (w_heap w' !! o); by inversion Hdrv. }
  inversion Hread; subst w1 rec'. clear Hread.
  subst out. unfold _get_driver_name, mbind, M_bind, Py.bind.
  rewrite Hstate, Hdrv. unfold of_res. simpl value_getitem.
  split; [|split].
  - by intros ->.
  - intros v -> Hv. destruct v; simpl; try by eexists. by destruct (Hv d).
  - intros d -> Hd. simpl. by rewrite Hd.
Qed.



End Facts.



(** X12, witness: the configuration a scenario file with [driver: null]
    leaves behind. *)
Lemma driver_entry_errors_witness :
  ∃ w1 msg,
    _get_driver_name id ∅ (λ _, "/cache/state.yml") with_docker (λ _, "")
      (mkConfig "" None None None [ ("driver", VNone) ]) empty_world
    = (w1, Raised (TypeError msg)).
Proof.
  destruct (driver_entry_errors id ∅ (λ _, "/cache/state.yml") (λ _, "") with_docker
              (mkConfig "" None None None [ ("driver", VNone) ]) empty_world
              (mkWorld [] None [State.default_data; State.default_data] (Some 1)) None
              eq_refl)
    as (_ & H & _).
  destruct (H VNone eq_refl ltac:(discriminate)) as (msg & E).
  by eexists _, _.
Defined.





End DriverOutcomes.

(** ** The environment file *)

Module EnvFileFacts.

Import Config MergeFacts.

Section Facts.
Variable fs : gmap string OsPath.node.
Variable safe_load_file : string → res (list (string * string)).

Lemma lookup_update (d : list (string * string)) : ∀ (env : gmap string string) k,
  fold_left (λ env kv, <[ kv.1 := kv.2 ]> env) d env !! k
  = match dict_get k (reverse d) with
    | Some v => Some v
    | None => env !! k
    end.
Proof.
  induction d as [|[k' v'] d IH]; intros env k; simpl; [done|].
  rewrite IH, reverse_cons, dict_get_app. simpl.
  destruct (dict_get k (reverse d)); [done|].
  destruct (String.eqb_spec k' k) as [->|Hne].
  - apply lookup_insert_eq.
  - by apply lookup_insert_ne.
Qed.


(** X16.  [set_env_from_file] is idempotent: applying it to its own result
    gives that result again, so the second application that [_interpolate]
    makes after [_reget_config] has already made one changes nothing. *)
Theorem env_file_idempotent (env env' : gmap string string) (env_file : option string) :
  set_env_from_file fs safe_load_file env env_file = Ok env' →
  set_env_from_file fs safe_load_file env' env_file = Ok env'.
Proof.
  unfold set_env_from_file. destruct env_file as [f|]; [|done].
  destruct (negb (String.eqb f "") && OsPath.exists_ fs f); [|done].
  destruct (safe_load_file f) as [d|e]; [|done].
  intros [= <-]. f_equal. apply map_eq. intros k.
  rewrite !lookup_update. by destruct (dict_get k (reverse d)).
Qed.

End Facts.


(** X16, witness. *)
Lemma env_file_idempotent_witness :
  let fs : gmap string OsPath.node := {[ "/r/.env.yml" := OsPath.File "HOME: /tmp" 0 ]} in
  let load : string → res (list (string * string)) := λ _, Ok [ ("HOME", "/tmp") ] in
  let env' : gmap string string := <[ "HOME" := "/tmp" ]> {[ "HOME" := "/root" ]} in
  set_env_from_file fs load env' (Some "/r/.env.yml") = Ok env'.
Proof.
  intros fs load env'.
  apply (env_file_idempotent fs load {[ "HOME" := "/root" ]} env' (Some "/r/.env.yml")).
  unfold set_env_from_file, OsPath.exists_, fs. rewrite lookup_singleton_eq. reflexivity.
Defined.

End EnvFileFacts.

(** ** Paths of scenarios: [os.path.join], [os.path.isdir] and the
       module-level functions of [molecule.config] *)

Module ConfigPaths.

Import OsPath.

(** [b.startswith('/')] *)
Definition starts_with_sep (b : string) : bool :=
  match b with
  | String c _ => is_sep c
  | EmptyString => false
  end.

(** [path.endswith('/')] *)
Fixpoint ends_with_sep (path : string) : bool :=
  match path with
  | EmptyString => false
  | String c EmptyString => is_sep c
  | String _ path' => ends_with_sep path'
  end.

(** [os.path.join(path, b)] *)
Definition join (path b : string) : string :=
  if starts_with_sep b then b
  else if String.eqb path "" || ends_with_sep path then path +:+ b
  else path +:+ "/" +:+ b.

(** [os.path.isdir] *)
Definition isdir (fs : gmap string node) (p : string) : bool :=
  match fs !! p with
  | Some (Dir _) => true
  | _ => false
  end.

Definition MOLECULE_DIRECTORY : string := "molecule".
Definition MOLECULE_FILE : string := "molecule.yml".

(** [molecule_directory(path)] *)
Definition molecule_directory (path : string) : string :=
  join path MOLECULE_DIRECTORY.

(** [molecule_file(path)] *)
Definition molecule_file (path : string) : string :=
  join path MOLECULE_FILE.

(** [Base._validate_template_dir] of [molecule.command.init.base] *)
Definition _validate_template_dir (fs : gmap string node) (template_dir : string) : M unit :=
  if negb (isdir fs template_dir)
  then sysexit_with_message
         ("The specified template directory (" +:+ template_dir +:+ ") does not exist")
  else mret tt.

End ConfigPaths.

Module ConfigPathsFacts.

Import OsPath ConfigPaths Config.

Lemma append_cons (x : ascii) (a b : string) : String x a +:+ b = String x (a +:+ b).
Proof. reflexivity. Qed.

Lemma append_empty (b : string) : "" +:+ b = b.
Proof. reflexivity. Qed.

Ltac unfold_append := rewrite ?append_cons, ?append_empty; simpl.

Lemma append_assoc (a b c : string) : (a +:+ b) +:+ c = a +:+ b +:+ c.
Proof. induction a as [|x a IH]; unfold_append; [done|]. by rewrite IH. Qed.

Lemma append_nonempty (a b : string) : b ≠ "" → a +:+ b ≠ "".
Proof. destruct a; unfold_append; [done|]. discriminate. Qed.

Lemma has_sep_append (a b : string) : has_sep (a +:+ b) = has_sep a || has_sep b.
Proof. induction a as [|x a IH]; unfold_append; [done|]. by rewrite IH, orb_assoc. Qed.

Lemma ends_with_sep_append (a b : string) : b ≠ "" → ends_with_sep (a +:+ b) = ends_with_sep b.
Proof.
  intros Hb. induction a as [|x a IH]; unfold_append; [done|].
  destruct (a +:+ b) eqn:E; [|exact IH].
  by destruct (append_nonempty a b Hb).
Qed.

Lemma ends_with_sep_plain (n : string) : has_sep n = false → ends_with_sep n = false.
Proof.
  induction n as [|x n IH]; simpl; [done|].
  intros H. apply orb_false_iff in H as [Hx Hn]. destruct n; [done | by apply IH].
Qed.

Lemma starts_with_sep_plain (n : string) : has_sep n = false → starts_with_sep n = false.
Proof. destruct n; simpl; [done|]. intros H. by apply orb_false_iff in H as [Hx _]. Qed.

Lemma basename_append (a n : string) : has_sep n = false → basename (a +:+ "/" +:+ n) = n.
Proof.
  intros Hn. induction a as [|x a IH]; unfold_append.
  - by rewrite Hn.
  - rewrite has_sep_append. unfold_append. by rewrite orb_true_r.
Qed.

Lemma head_append (a n : string) : has_sep n = false → head (a +:+ "/" +:+ n) = a +:+ "/".
Proof.
  intros Hn. induction a as [|x a IH]; unfold_append.
  - by rewrite Hn.
  - rewrite has_sep_append. unfold_append. rewrite orb_true_r. f_equal. exact IH.
Qed.

Lemma head_plain (n : string) : has_sep n = false → head n = "".
Proof.
  destruct n as [|x n]; simpl; [done|].
  intros H. apply orb_false_iff in H as [Hx Hn]. by rewrite Hn, Hx.
Qed.

Lemma rstrip_sep_plain (n : string) : has_sep n = false → rstrip_sep n = n.
Proof.
  induction n as [|x n IH]; simpl; [done|].
  intros H. apply orb_false_iff in H as [Hx Hn]. rewrite (IH Hn), Hx. by destruct n.
Qed.

Lemma rstrip_sep_append (a n : string) :
  n ≠ "" → has_sep n = false → rstrip_sep (a +:+ n) = a +:+ n.
Proof.
  intros Hne Hn. induction a as [|x a IH]; unfold_append; [by apply rstrip_sep_plain|].
  rewrite IH. destruct (a +:+ n) eqn:E; [|done].
  by destruct (append_nonempty a n Hne).
Qed.

Lemma rstrip_sep_slash (s : string) : rstrip_sep (s +:+ "/") = rstrip_sep s.
Proof. induction s as [|x s IH]; unfold_append; [done|]. by rewrite IH. Qed.

Lemma all_sep_append (a b : string) : all_sep (a +:+ b) = all_sep a && all_sep b.
Proof. induction a as [|x a IH]; unfold_append; [done|]. by rewrite IH, andb_assoc. Qed.

Lemma all_sep_plain (n : string) : n ≠ "" → has_sep n = false → all_sep n = false.
Proof.
  destruct n as [|x n]; simpl; [done|].
  intros _ H. apply orb_false_iff in H as [-> _]. done.
Qed.

(** The directory of [d/molecule.yml] is [d] when [d] ends in a name. *)
Lemma dirname_of_file (a n file : string) :
  n ≠ "" → has_sep n = false → has_sep file = false →
  dirname ((a +:+ n) +:+ "/" +:+ file) = a +:+ n.
Proof.
  intros Hne Hn Hfile. unfold dirname. rewrite (head_append _ file Hfile).
  assert (String.eqb ((a +:+ n) +:+ "/") "" = false) as ->.
  { apply String.eqb_neq. by apply append_nonempty. }
  rewrite all_sep_append, all_sep_append, (all_sep_plain n Hne Hn), andb_false_r. simpl.
  by rewrite rstrip_sep_slash, rstrip_sep_append.
Qed.

Lemma join_plain (path n : string) :
  path ≠ "" → ends_with_sep path = false → has_sep n = false →
  join path n = path +:+ "/" +:+ n.
Proof.
  intros Hp He Hn. unfold join. rewrite (starts_with_sep_plain n Hn), He.
  by destruct (String.eqb_spec path "").
Qed.

(** [molecule_directory] always ends in the name ["molecule"]. *)
Lemma molecule_directory_shape (project : string) :
  ∃ a, molecule_directory project = a +:+ "molecule".
Proof.
  unfold molecule_directory, join, MOLECULE_DIRECTORY. simpl.
  destruct (String.eqb project "" || ends_with_sep project).
  - by exists project.
  - exists (project +:+ "/"). by rewrite append_assoc.
Qed.

(** X17.  The scenario name comes back from the path: for a project
    directory [project] and a scenario called [name] (not empty, no slash),
    the scenario directory is [molecule_directory(project)/name], its
    configuration file is that directory's [molecule.yml], and the defaults
    of a [Config] for that file carry [name] as the scenario name. *)
Theorem scenario_name_round_trip (project name : string) :
  name ≠ "" →
  has_sep name = false →
  let directory := join (molecule_directory project) name in
  directory = molecule_directory project +:+ "/" +:+ name
  ∧ ConfigPaths.molecule_file directory = directory +:+ "/molecule.yml"
  ∧ ∀ base_config env_file driver_name config,
      _get_defaults (mkConfig (ConfigPaths.molecule_file directory) base_config env_file driver_name config)
      = defaults_for name.
Proof.
  intros Hne Hn directory.
  destruct (molecule_directory_shape project) as (a & Ha).
  assert (Hdir : directory = molecule_directory project +:+ "/" +:+ name).
  { subst directory. apply join_plain; [| |done].
    - rewrite Ha. by apply append_nonempty.
    - rewrite Ha. by rewrite ends_with_sep_append. }
  assert (Hfile : ConfigPaths.molecule_file directory = directory +:+ "/molecule.yml").
  { unfold ConfigPaths.molecule_file, MOLECULE_FILE. apply join_plain; [| |done].
    - rewrite Hdir. apply append_nonempty. discriminate.
    - rewrite Hdir, <- append_assoc, ends_with_sep_append by done.
      by apply ends_with_sep_plain. }
  split; [done|]. split; [done|].
  intros base_config env_file driver_name config.
  unfold _get_defaults. cbn [Config.molecule_file]. rewrite Hfile.
  assert (String.eqb (directory +:+ "/molecule.yml") "" = false) as ->.
  { apply String.eqb_neq. apply append_nonempty. discriminate. }
  assert (Hd : dirname (directory +:+ "/molecule.yml") = directory).
  { rewrite Hdir, <- (append_assoc (molecule_directory project) "/" name).
    by apply (dirname_of_file _ name "molecule.yml"). }
  rewrite Hd, Hdir, (basename_append _ name Hn).
  by destruct (String.eqb_spec name "").
Qed.

(** X18.  A configuration file given without a directory part, or none at
    all, gives the scenario name ["default"], whatever the working
    directory is called. *)
Theorem scenario_name_without_directory (file : string)
    (base_config : option (list string)) (env_file driver_name : option string)
    (config : list (string * value)) :
  has_sep file = false →
  _get_defaults (mkConfig file base_config env_file driver_name config)
  = defaults_for "default".
Proof.
  intros Hfile. unfold _get_defaults. cbn [Config.molecule_file].
  destruct (String.eqb file ""); [done|].
  unfold dirname. by rewrite (head_plain file Hfile).
Qed.

(** X19.  [_validate_template_dir] returns exactly for a path that is a
    directory; for a path with nothing there, and for a regular file alike,
    it exits with a message that quotes the path and says it does not
    exist. *)
Theorem template_dir_must_be_directory (fs : gmap string node) (template_dir : string)
    (w : World) :
  (_validate_template_dir fs template_dir w = (w, Ok tt)
   ↔ ∃ t, fs !! template_dir = Some (Dir t))
  ∧ ((_validate_template_dir fs template_dir w).2
     = Raised (SystemExit ("The specified template directory (" +:+ template_dir
                           +:+ ") does not exist"))
     ↔ fs !! template_dir = None ∨ ∃ c t, fs !! template_dir = Some (File c t)).
Proof.
  unfold _validate_template_dir, isdir.
  destruct (fs !! template_dir) as [[t|c t]|]; simpl; (split; split); try done.
  - intros _. by exists t.
  - intros [? | (? & ? & ?)]; done.
  - by intros [t' ?].
  - intros _. right. by exists c, t.
  - by intros [t' ?].
  - intros _. by left.
Qed.

(** X17, witness. *)
Lemma scenario_name_round_trip_witness :
  ConfigPaths.molecule_file (join (molecule_directory "/home/me/role") "centos")
  = "/home/me/role/molecule/centos/molecule.yml"
  ∧ _get_defaults (mkConfig (ConfigPaths.molecule_file (join (molecule_directory "/home/me/role") "centos"))
                     None None None [])
    = defaults_for "centos".
Proof.
  destruct (scenario_name_round_trip "/home/me/role" "centos" ltac:(discriminate) eq_refl)
    as (_ & _ & H).
  split; [reflexivity | apply H].
Defined.

(** X18, witness. *)
Lemma scenario_name_without_directory_witness :
  _get_defaults (mkConfig "molecule.yml" None None None []) = defaults_for "default".
Proof. apply scenario_name_without_directory. reflexivity. Defined.

End ConfigPathsFacts.

(** ** What [_combine] does with sources that are missing or broken *)

Module CombineOutcomes.

Import Config CombineFacts.

Section Outcomes.
Variable fs : gmap string OsPath.node.
Variable interpolate : gmap string string → string → option string → res string.
Variable safe_load : string → res (list (string * value)).
Variable safe_load_file : string → res (list (string * string)).
Variable abs_path : option string → option string.

(** The loading step looks at the [Config] only for the path of the
    scenario file and for the environment file. *)
Lemma merge_file_self self self' env keep_string defaults path w :
  molecule_file self = molecule_file self' →
  args_env_file self = args_env_file self' →
  merge_file fs interpolate safe_load safe_load_file abs_path
    self env keep_string defaults path w
  = merge_file fs interpolate safe_load safe_load_file abs_path
      self' env keep_string defaults path w.
Proof.
  intros Hmf Hef. unfold merge_file, _interpolate, env_file. by rewrite Hmf, Hef.
Qed.

Lemma merge_files_self self self' env keep_string paths :
  molecule_file self = molecule_file self' →
  args_env_file self = args_env_file self' →
  ∀ defaults w,
    merge_files fs interpolate safe_load safe_load_file abs_path
      self env keep_string defaults paths w
    = merge_files fs interpolate safe_load safe_load_file abs_path
        self' env keep_string defaults paths w.
Proof.
  intros Hmf Hef. induction paths as [|path paths IH]; intros defaults w; simpl; [done|].
  unfold mbind, M_bind, Py.bind. rewrite (merge_file_self self self') by done.
  destruct (merge_file _ _ _ _ _ _ _ _ _ _ _) as [w' [defaults'|e]]; [apply IH | done].
Qed.

(** [_combine] up to the first source that is not known to load. *)
Lemma combine_prefix self env keep_string pre path post docs w :
  sources fs self = pre ++ path :: post →
  Forall2 (loads fs interpolate safe_load safe_load_file abs_path self env keep_string)
    pre docs →
  _combine fs interpolate safe_load safe_load_file abs_path self env keep_string w
  = match merge_file fs interpolate safe_load safe_load_file abs_path self env keep_string
            (fold_left merge_dicts docs (_get_defaults self)) path w with
    | (w', Ok defaults') =>
        merge_files fs interpolate safe_load safe_load_file abs_path
          self env keep_string defaults' post w'
    | (w', Raised e) => (w', Raised e)
    end.
Proof.
  intros Hsrc Hpre. rewrite combine_sources, Hsrc, merge_files_app.
  rewrite (merge_files_loads _ _ _ _ _ _ _ _ _ _ Hpre). simpl.
  unfold mbind, M_bind, Py.bind.
  by destruct (merge_file _ _ _ _ _ _ _ _ _ _ _) as [w' [defaults'|e]].
Qed.

(** X20.  A base config whose path does not exist is skipped without a
    word: the resolution gives the same result, and leaves the same world,
    as if the path had not been listed. *)
Theorem missing_base_config_is_skipped (file : string) (listed_before listed_after : list string)
    (path : string) (env_file driver_name : option string) (config : list (string * value))
    (env : gmap string string) (keep_string : option string) (w : World) :
  OsPath.exists_ fs path = false →
  _combine fs interpolate safe_load safe_load_file abs_path
    (mkConfig file (Some (listed_before ++ path :: listed_after)) env_file driver_name config)
    env keep_string w
  = _combine fs interpolate safe_load safe_load_file abs_path
      (mkConfig file (Some (listed_before ++ listed_after)) env_file driver_name config)
      env keep_string w.
Proof.
  intros Hpath. rewrite !combine_sources. unfold sources, _get_defaults. simpl.
  rewrite !List.filter_app. simpl. rewrite Hpath.
  by apply merge_files_self.
Qed.

(** X21.  The scenario file is not skipped when it is missing: once the
    base configs that exist have loaded, a scenario file that is set but
    not on disk ends the resolution with [FileNotFoundError] for its
    path. *)
Theorem missing_scenario_file_is_fatal (self : Config) (env : gmap string string)
    (keep_string : option string) (docs : list (list (string * value))) (w : World) :
  molecule_file self ≠ "" →
  fs !! molecule_file self = None →
  Forall2 (loads fs interpolate safe_load safe_load_file abs_path self env keep_string)
    (List.filter (OsPath.exists_ fs) (default [] (args_base_config self))) docs →
  _combine fs interpolate safe_load safe_load_file abs_path self env keep_string w
  = (w, Raised (FileNotFoundError (molecule_file self))).
Proof.
  intros Hset Hmissing Hbase.
  rewrite (combine_prefix self env keep_string
             (List.filter (OsPath.exists_ fs) (default [] (args_base_config self)))
             (molecule_file self) [] docs w).
  - unfold merge_file, mbind, M_bind, Py.bind, of_res, OsPath.read. by rewrite Hmissing.
  - unfold sources. by destruct (String.eqb_spec (molecule_file self) "").
  - exact Hbase.
Qed.

(** X22.  A source that cannot be parsed ends the resolution with the
    parser's error, whatever comes after it: when the sources before it
    load, and its text is read and interpolated but [safe_load] raises [e],
    [_combine] raises [e] and nothing of the later sources is merged. *)
Theorem parse_error_is_not_caught (self : Config) (env env' : gmap string string)
    (keep_string : option string) (pre post : list string) (path text interpolated : string)
    (docs : list (list (string * value))) (e : exc) (w : World) :
  sources fs self = pre ++ path :: post →
  Forall2 (loads fs interpolate safe_load safe_load_file abs_path self env keep_string)
    pre docs →
  OsPath.read fs path = Ok text →
  set_env_from_file fs safe_load_file env (Config.env_file abs_path self) = Ok env' →
  interpolate env' text keep_string = Ok interpolated →
  safe_load interpolated = Raised e →
  _combine fs interpolate safe_load safe_load_file abs_path self env keep_string w
  = (w, Raised e).
Proof.
  intros Hsrc Hpre Hread Henv Hint Hload.
  rewrite (combine_prefix self env keep_string pre path post docs w Hsrc Hpre).
  unfold merge_file, _interpolate, mbind, M_bind, Py.bind, of_res, try_except.
  by rewrite Hread, Henv, Hint, Hload.
Qed.

End Outcomes.

(** An interpolator that leaves every text as it is. *)
Definition unchanged (env : gmap string string) (s : string) (keep : option string)
    : res string := Ok s.

(** A parser that accepts nothing. *)
Definition unparsable (s : string) : res (list (string * value)) :=
  Raised (Exception "while parsing a flow mapping").

Definition user_config : string := "/home/me/.config/molecule/config.yml".

Definition scenario_file : string := "/r/molecule/default/molecule.yml".

(** X20, witness: the user-wide base config is listed and is not there. *)
Lemma missing_base_config_is_skipped_witness :
  _combine ∅ unchanged unparsable (λ _, Ok []) id
    (mkConfig "" (Some [user_config]) None None []) ∅ None empty_world
  = _combine ∅ unchanged unparsable (λ _, Ok []) id
      (mkConfig "" (Some []) None None []) ∅ None empty_world.
Proof.
  apply (missing_base_config_is_skipped ∅ unchanged unparsable (λ _, Ok []) id
           "" [] [] user_config None None [] ∅ None empty_world).
  reflexivity.
Defined.

(** X21, witness: a scenario file is named and the disk is empty. *)
Lemma missing_scenario_file_is_fatal_witness :
  _combine ∅ unchanged unparsable (λ _, Ok []) id
    (mkConfig scenario_file None None None []) ∅ None empty_world
  = (empty_world, Raised (FileNotFoundError scenario_file)).
Proof.
  apply (missing_scenario_file_is_fatal ∅ unchanged unparsable (λ _, Ok []) id
           (mkConfig scenario_file None None None []) ∅ None [] empty_world).
  - discriminate.
  - reflexivity.
  - constructor.
Defined.

(** X22, witness: the scenario file is there and holds an unclosed brace. *)
Lemma parse_error_is_not_caught_witness :
  _combine {[ scenario_file := OsPath.File "{" 0 ]} unchanged unparsable (λ _, Ok []) id
    (mkConfig scenario_file None None None []) ∅ None empty_world
  = (empty_world, Raised (Exception "while parsing a flow mapping")).
Proof.
  apply (parse_error_is_not_caught {[ scenario_file := OsPath.File "{" 0 ]}
           unchanged unparsable (λ _, Ok []) id
           (mkConfig scenario_file None None None []) ∅ ∅ None
           [] [] scenario_file "{" "{" [] (Exception "while parsing a flow mapping")
           empty_world).
  - reflexivity.
  - constructor.
  - vm_compute. reflexivity.
  - reflexivity.
  - reflexivity.
  - reflexivity.
Defined.

End CombineOutcomes.
